(** * Prior-Art-Analyst: the watsonx.ai wrapper and the claim extractor

    A shallow embedding of

    - [backend/app/integrations/watsonx_ai.py]  (class [WatsonxAI])
    - [backend/app/ml_services/claim_extractor.py] (class [ClaimExtractor])

    together with the pieces of the Python runtime they rely on
    ([str] methods, [json.dumps], [json.loads], [hashlib.md5]).

    Conventions of the embedding.

    - The code is embedded twice.  In [WatsonxAI] and [ClaimExtractor] a
      Python [str] is a [string]; a character is read as the code point
      of the same number, so these modules cover the texts whose code
      points lie in U+0000..U+00FF, and on them [str.lower],
      [str.strip], [str.encode], [json.dumps] and [json.loads] are
      computed.  In [Unicode] a [str] is any list of code points, and
      [str.lower] and [json.loads] are parameters; there
      [prompt.encode()] can raise, lowercasing can change the length of
      a text, and the decoder can return any value or raise any
      exception.  A text below U+0100 is moved into [Unicode] by
      [widen]; [stub_generate_latin1] and [extract_background_latin1]
      show that the first embedding is the second one on such texts.
    - A value that travels through JSON is a [json] tree.  A Python
      [float] is the rational its literal denotes; rounding to binary64
      is not modelled (the program only produces [float(n)] for an
      integer [n] between 10 and 95).
    - A call that may raise returns an [outcome].  Methods of the two
      classes run in the monad [M], which threads the object the method
      is called on and the number of requests the hosted model has
      served so far. *)

From Stdlib Require Import ZArith NArith QArith List String Ascii Bool Lia.
From Stdlib Require Import DecimalString Sorted.
Import ListNotations.
Close Scope Q_scope.
Open Scope string_scope.

(* ================================================================== *)
(** ** Python [str] *)
(* ================================================================== *)

Module PyStr.

(** Characters that cannot be written inside a literal. *)
Definition dq : string := String "034" EmptyString.
Definition nl : string := String "010" EmptyString.

Definition code (c : ascii) : N := N_of_ascii c.

(** [str.lower] on U+0000..U+00FF: A-Z and the Latin-1 capitals
    U+00C0..U+00DE (without the multiplication sign U+00D7) move up by 32.
    On this range lowercasing keeps the length of a text; beyond it, it
    need not (U+0130 becomes two characters). *)
Definition lower_char (c : ascii) : ascii :=
  let n := code c in
  if ((65 <=? n) && (n <=? 90) ||
      (192 <=? n) && (n <=? 222) && negb (n =? 215))%N
  then ascii_of_N (n + 32) else c.

Fixpoint lower (s : string) : string :=
  match s with
  | EmptyString => EmptyString
  | String c r => String (lower_char c) (lower r)
  end.

(** [str.isspace] on U+0000..U+00FF. *)
Definition is_space (c : ascii) : bool :=
  let n := code c in
  ((9 <=? n) && (n <=? 13) || (28 <=? n) && (n <=? 32) ||
   (n =? 133) || (n =? 160))%N.

Definition is_empty (s : string) : bool :=
  match s with EmptyString => true | String _ _ => false end.

(** [sub in s] *)
Fixpoint contains (sub s : string) : bool :=
  prefix sub s ||
  match s with
  | EmptyString => false
  | String _ r => contains sub r
  end.

(** [s.index(sub)], [None] standing for [ValueError]. *)
Fixpoint index_of (sub s : string) : option nat :=
  if prefix sub s then Some 0
  else match s with
       | EmptyString => None
       | String _ r => option_map S (index_of sub r)
       end.

(** [s.count(sub)]: occurrences are counted from the left and do not
    overlap; [skip] characters of a match just counted are passed over. *)
Fixpoint count_from (sub s : string) (skip : nat) : nat :=
  match s with
  | EmptyString => 0
  | String _ r =>
      match skip with
      | S k => count_from sub r k
      | O => if prefix sub s
             then S (count_from sub r (length sub - 1))
             else count_from sub r 0
      end
  end.

Definition count (sub s : string) : nat :=
  if is_empty sub then S (length s) else count_from sub s 0.

(** [s.replace(old, new)] *)
Fixpoint replace_from (old new s : string) (skip : nat) : string :=
  match s with
  | EmptyString => EmptyString
  | String c r =>
      match skip with
      | S k => replace_from old new r k
      | O => if prefix old s
             then new ++ replace_from old new r (length old - 1)
             else String c (replace_from old new r 0)
      end
  end.

Fixpoint intersperse (new s : string) : string :=
  match s with
  | EmptyString => new
  | String c r => new ++ String c (intersperse new r)
  end.

Definition replace (old new s : string) : string :=
  if is_empty old then intersperse new s else replace_from old new s 0.

(** [s.strip()] *)
Fixpoint lstrip (s : string) : string :=
  match s with
  | EmptyString => EmptyString
  | String c r => if is_space c then lstrip r else s
  end.

Fixpoint rstrip (s : string) : string :=
  match s with
  | EmptyString => EmptyString
  | String c r =>
      let r' := rstrip r in
      if is_space c && is_empty r' then EmptyString else String c r'
  end.

Definition strip (s : string) : string := rstrip (lstrip s).

(** Slices with non-negative bounds: [s[:n]] and [s[a:b]]. *)
Fixpoint take (n : nat) (s : string) : string :=
  match n, s with
  | S k, String c r => String c (take k r)
  | _, _ => EmptyString
  end.

Fixpoint drop (n : nat) (s : string) : string :=
  match n, s with
  | S k, String _ r => drop k r
  | _, _ => s
  end.

Definition slice (a b : nat) (s : string) : string := take (b - a) (drop a s).

(** [str(n)] for integers. *)
Definition str_of_N (n : N) : string := NilZero.string_of_uint (N.to_uint n).
Definition str_of_Z (z : Z) : string := NilZero.string_of_int (Z.to_int z).

(** [sep.join(parts)] *)
Fixpoint join (sep : string) (parts : list string) : string :=
  match parts with
  | [] => EmptyString
  | [p] => p
  | p :: ps => p ++ sep ++ join sep ps
  end.

(** The text of a triple-quoted literal, one entry per line break. *)
Definition lines (ls : list string) : string := join nl ls.

End PyStr.

(* ================================================================== *)
(** ** Values, exceptions, and the [json] module *)
(* ================================================================== *)

(** The exception classes the two modules can meet; each of them is a
    subclass of [Exception]. *)
Inductive exn : Type :=
| JSONDecodeError
| AttributeError
| KeyError
| TypeError
| ValueError
| UnicodeEncodeError
| RecursionError
| ServiceError (msg : string).

Inductive outcome (A : Type) : Type :=
| Returns (a : A)
| Raises (e : exn).
Arguments Returns {A} a.
Arguments Raises {A} e.

Module Json.
Import PyStr.

Inductive nonfinite : Type := NaN | PosInf | NegInf.

(** What [json.loads] can produce and [json.dumps] can print. *)
#[warnings="-register-all"]
Inductive json : Type :=
| JNull
| JBool (b : bool)
| JInt (z : Z)
| JFloat (q : Q)
| JNonFinite (x : nonfinite)
| JStr (s : string)
| JList (l : list json)
| JDict (d : list (string * json)).

(** *** Dictionaries: insertion-ordered, one entry per key *)

Fixpoint dict_get (d : list (string * json)) (k : string) : option json :=
  match d with
  | [] => None
  | (k', v) :: r => if String.eqb k' k then Some v else dict_get r k
  end.

(** [d[k] = v] *)
Fixpoint dict_set (d : list (string * json)) (k : string) (v : json)
  : list (string * json) :=
  match d with
  | [] => [(k, v)]
  | (k', v') :: r =>
      if String.eqb k' k then (k', v) :: r else (k', v') :: dict_set r k v
  end.

(** [obj.get(k, default)]; only a [dict] has the method. *)
Definition get (obj : json) (k : string) (default : json) : outcome json :=
  match obj with
  | JDict d => Returns (match dict_get d k with Some v => v | None => default end)
  | _ => Raises AttributeError
  end.

(** Truth value of [if v:] *)
Definition truthy (v : json) : bool :=
  match v with
  | JNull => false
  | JBool b => b
  | JInt z => negb (z =? 0)%Z
  | JFloat q => negb (Qnum q =? 0)%Z
  | JNonFinite _ => true
  | JStr s => negb (is_empty s)
  | JList l => match l with [] => false | _ => true end
  | JDict d => match d with [] => false | _ => true end
  end.

(** *** [json.dumps] with its default arguments *)

Definition hex_digit (n : N) : ascii :=
  if (n <? 10)%N then ascii_of_N (48 + n) else ascii_of_N (87 + n).

Definition escape_char (c : ascii) : string :=
  let n := code c in
  if (n =? 34)%N then "\" ++ dq
  else if (n =? 92)%N then "\\"
  else if (n =? 10)%N then "\n"
  else if (n =? 13)%N then "\r"
  else if (n =? 9)%N then "\t"
  else if (n =? 8)%N then "\b"
  else if (n =? 12)%N then "\f"
  else if ((n <? 32) || (126 <? n))%N
       then "\u00" ++ String (hex_digit (n / 16)) (String (hex_digit (n mod 16)) EmptyString)
  else String c EmptyString.

Fixpoint escape (s : string) : string :=
  match s with
  | EmptyString => EmptyString
  | String c r => escape_char c ++ escape r
  end.

Definition quote (s : string) : string := dq ++ escape s ++ dq.

(** The zeros between the point and the first digit of [a / d], for
    [0 < a < d]. *)
Fixpoint leading_zeros (fuel : nat) (a d : Z) : nat :=
  match fuel with
  | O => O
  | S f => if (d <=? a * 10)%Z then O else S (leading_zeros f (a * 10)%Z d)
  end.

Fixpoint zeros (k : nat) : string :=
  match k with
  | O => EmptyString
  | S k' => String "0" (zeros k')
  end.

(** The digits without the zeros at their end. *)
Fixpoint strip_zeros (s : string) : string :=
  match s with
  | EmptyString => EmptyString
  | String c r =>
      let r' := strip_zeros r in
      if is_empty r' && Ascii.eqb c "0" then EmptyString else String c r'
  end.

(** [repr] of a finite float: its digits, at most seventeen, with an
    exponent when the number is at least 1e16 or below 1e-4.  This is
    what CPython prints for a float written with at most fifteen
    significant digits. *)
Definition float_repr (q : Q) : string :=
  let n := Qnum q in
  let d := Z.pos (Qden q) in
  let a := Z.abs n in
  if (a =? 0)%Z then "0.0"
  else
    (* the decimal exponent: 10^e <= a / d < 10^(e + 1) *)
    let e :=
      if (d <=? a)%Z then (Z.of_nat (length (str_of_Z (a / d))) - 1)%Z
      else (- Z.of_nat (S (leading_zeros 400 a d)))%Z in
    (* the first seventeen significant digits, without the zeros at the end *)
    let sig :=
      if (e <=? 16)%Z then (a * 10 ^ (16 - e) / d)%Z
      else (a / (d * 10 ^ (e - 16)))%Z in
    let ds := strip_zeros (str_of_Z sig) in
    let ds := if is_empty ds then "0" else ds in
    (if (n <? 0)%Z then "-" else EmptyString) ++
    (if ((-4 <=? e) && (e <? 16))%Z then
       if (0 <=? e)%Z then
         let i := Z.to_nat (e + 1)%Z in
         let frac := drop i ds in
         take i ds ++ zeros (i - length ds) ++ "."
           ++ (if is_empty frac then "0" else frac)
       else "0." ++ zeros (Z.to_nat (- e - 1)%Z) ++ ds
     else
       take 1 ds
         ++ (if (1 <? length ds)%nat then "." ++ drop 1 ds else EmptyString)
         ++ "e" ++ (if (e <? 0)%Z then "-" else "+")
         ++ (if (Z.abs e <? 10)%Z then "0" else EmptyString)
         ++ str_of_Z (Z.abs e)).

Fixpoint dumps (v : json) : string :=
  match v with
  | JNull => "null"
  | JBool true => "true"
  | JBool false => "false"
  | JInt z => str_of_Z z
  | JFloat q => float_repr q
  | JNonFinite NaN => "NaN"
  | JNonFinite PosInf => "Infinity"
  | JNonFinite NegInf => "-Infinity"
  | JStr s => quote s
  | JList l => "[" ++ join ", " (map dumps l) ++ "]"
  | JDict d =>
      "{" ++ join ", " (map (fun kv => let '(k, x) := kv in
                                       quote k ++ ": " ++ dumps x) d) ++ "}"
  end.

(** *** [json.loads] with its default arguments

    [None] stands for [json.JSONDecodeError].  The scanner follows the
    decoder on texts whose strings stay below U+0100 and whose numbers
    and nesting stay within the interpreter's limits: an escape
    [\uXXXX] above U+00FF has no counterpart among the characters of a
    [string] and is refused here, and the [ValueError] for an integer of
    more than 4300 digits and the [RecursionError] for deep nesting have
    no counterpart either.  It is used on the texts the program prints
    itself and on given replies; what holds for every reply is stated
    in [Unicode], where the decoder is a parameter. *)

Definition is_ws (c : ascii) : bool :=
  let n := code c in ((n =? 32) || (n =? 9) || (n =? 10) || (n =? 13))%N.

Fixpoint skip_ws (s : string) : string :=
  match s with
  | EmptyString => EmptyString
  | String c r => if is_ws c then skip_ws r else s
  end.

Definition is_digit (c : ascii) : bool :=
  let n := code c in ((48 <=? n) && (n <=? 57))%N.

Fixpoint digits (s : string) (acc : N) (k : nat) : N * nat * string :=
  match s with
  | EmptyString => (acc, k, s)
  | String c r =>
      if is_digit c then digits r (acc * 10 + (code c - 48))%N (S k)
      else (acc, k, s)
  end.

Definition pow10 (k : Z) : positive := Z.to_pos (10 ^ k).

(** The float denoted by integer part [n], fraction [f] of [k] digits and
    decimal exponent [e]. *)
Definition mk_float (neg : bool) (n : N) (frac : option (N * nat)) (e : Z) : Q :=
  let '(f, k) := match frac with Some fk => fk | None => (0%N, 0) end in
  let m := (Z.of_N n * Z.pos (pow10 (Z.of_nat k)) + Z.of_N f)%Z in
  let m := if neg then (- m)%Z else m in
  if (0 <=? e)%Z
  then Qred (Qmake (m * Z.pos (pow10 e)) (pow10 (Z.of_nat k)))
  else Qred (Qmake m (pow10 (Z.of_nat k) * pow10 (- e))).

(** A literal beyond the largest binary64 number reads as an infinity;
    rounding below that bound is not modelled. *)
Definition float_value (q : Q) : json :=
  let top := inject_Z (2 ^ 1024 - 2 ^ 970) in
  if Qle_bool top q then JNonFinite PosInf
  else if Qle_bool q (Qopp top) then JNonFinite NegInf
  else JFloat q.

(** A number: an optional minus sign; then a zero, or a digit from 1 to
    9 followed by digits; then an optional fraction (a dot and at least
    one digit) and an optional exponent (e or E, an optional sign, at
    least one digit). *)
Definition parse_number (s : string) : option (json * string) :=
  let '(neg, s1) :=
    match s with
    | String "-"%char r => (true, r)
    | _ => (false, s)
    end in
  let int_part :=
    match s1 with
    | EmptyString => None
    | String c r =>
        if (code c =? 48)%N then Some (0%N, r)
        else if is_digit c then let '(n, _, r') := digits s1 0 0 in Some (n, r')
        else None
    end in
  match int_part with
  | None => None
  | Some (n, r1) =>
      let '(frac, r2) :=
        match r1 with
        | String "."%char r =>
            let '(f, k, r') := digits r 0 0 in
            if (k =? 0)%nat then (None, r1) else (Some (f, k), r')
        | _ => (None, r1)
        end in
      let '(ex, r3) :=
        match r2 with
        | String c r =>
            if ((code c =? 101) || (code c =? 69))%N then
              let '(sgn, rr) :=
                match r with
                | String "+"%char x => (false, x)
                | String "-"%char x => (true, x)
                | _ => (false, r)
                end in
              let '(e, k, r') := digits rr 0 0 in
              if (k =? 0)%nat then (None, r2)
              else (Some (if sgn then (- Z.of_N e)%Z else Z.of_N e), r')
            else (None, r2)
        | EmptyString => (None, r2)
        end in
      match frac, ex with
      | None, None => Some (JInt (if neg then (- Z.of_N n)%Z else Z.of_N n), r3)
      | _, _ =>
          Some (float_value (mk_float neg n frac
                               (match ex with Some e => e | None => 0%Z end)),
                r3)
      end
  end.

Definition hex_val (c : ascii) : option N :=
  let n := code c in
  if ((48 <=? n) && (n <=? 57))%N then Some (n - 48)%N
  else if ((97 <=? n) && (n <=? 102))%N then Some (n - 87)%N
  else if ((65 <=? n) && (n <=? 70))%N then Some (n - 55)%N
  else None.

Definition hex4 (a b c d : ascii) : option N :=
  match hex_val a, hex_val b, hex_val c, hex_val d with
  | Some x, Some y, Some z, Some w => Some (((x * 16 + y) * 16 + z) * 16 + w)%N
  | _, _, _, _ => None
  end.

Definition cons_char (c : ascii) (r : option (string * string))
  : option (string * string) :=
  match r with
  | Some (body, rest) => Some (String c body, rest)
  | None => None
  end.

(** The characters after an opening quote, up to the closing one. *)
Fixpoint parse_string_body (s : string) : option (string * string) :=
  match s with
  | EmptyString => None
  | String c r =>
      if (code c =? 34)%N then Some (EmptyString, r)
      else if (code c =? 92)%N then
        match r with
        | EmptyString => None
        | String e r' =>
            let n := code e in
            if (n =? 34)%N then cons_char e (parse_string_body r')
            else if (n =? 92)%N then cons_char e (parse_string_body r')
            else if (n =? 47)%N then cons_char e (parse_string_body r')
            else if (n =? 98)%N then cons_char "008" (parse_string_body r')
            else if (n =? 102)%N then cons_char "012" (parse_string_body r')
            else if (n =? 110)%N then cons_char "010" (parse_string_body r')
            else if (n =? 114)%N then cons_char "013" (parse_string_body r')
            else if (n =? 116)%N then cons_char "009" (parse_string_body r')
            else if (n =? 117)%N then
              match r' with
              | String h1 (String h2 (String h3 (String h4 r''))) =>
                  match hex4 h1 h2 h3 h4 with
                  | Some u =>
                      if (u <? 256)%N
                      then cons_char (ascii_of_N u) (parse_string_body r'')
                      else None
                  | None => None
                  end
              | _ => None
              end
            else None
        end
      else if (code c <? 32)%N then None
      else cons_char c (parse_string_body r)
  end.

Definition starts_with (c : ascii) (s : string) : option string :=
  match s with
  | String c' r => if Ascii.eqb c c' then Some r else None
  | EmptyString => None
  end.

Definition parse_atom (s : string) : option (json * string) :=
  if prefix "null" s then Some (JNull, drop 4 s)
  else if prefix "true" s then Some (JBool true, drop 4 s)
  else if prefix "false" s then Some (JBool false, drop 5 s)
  else match parse_number s with
       | Some r => Some r
       | None =>
           if prefix "NaN" s then Some (JNonFinite NaN, drop 3 s)
           else if prefix "Infinity" s then Some (JNonFinite PosInf, drop 8 s)
           else if prefix "-Infinity" s then Some (JNonFinite NegInf, drop 9 s)
           else None
       end.

(** The scanner.  [fuel] bounds the number of values still to be read;
    twice the length of the text is more than any text needs. *)
Fixpoint parse_value (fuel : nat) (s : string) : option (json * string) :=
  match fuel with
  | O => None
  | S f =>
      match s with
      | String c r =>
          if (code c =? 34)%N then
            match parse_string_body r with
            | Some (body, rest) => Some (JStr body, rest)
            | None => None
            end
          else if (code c =? 91)%N then
            match starts_with "]" (skip_ws r) with
            | Some rest => Some (JList [], rest)
            | None =>
                match parse_elements f (skip_ws r) with
                | Some (l, rest) => Some (JList l, rest)
                | None => None
                end
            end
          else if (code c =? 123)%N then
            match starts_with "}" (skip_ws r) with
            | Some rest => Some (JDict [], rest)
            | None =>
                match parse_members f (skip_ws r) [] with
                | Some (d, rest) => Some (JDict d, rest)
                | None => None
                end
            end
          else parse_atom s
      | EmptyString => None
      end
  end

with parse_elements (fuel : nat) (s : string) : option (list json * string) :=
  match fuel with
  | O => None
  | S f =>
      match parse_value f s with
      | None => None
      | Some (v, rest) =>
          match skip_ws rest with
          | String c r =>
              if (code c =? 93)%N then Some ([v], r)
              else if (code c =? 44)%N then
                match parse_elements f (skip_ws r) with
                | Some (l, rest') => Some (v :: l, rest')
                | None => None
                end
              else None
          | EmptyString => None
          end
      end
  end

with parse_members (fuel : nat) (s : string) (acc : list (string * json))
  : option (list (string * json) * string) :=
  match fuel with
  | O => None
  | S f =>
      match starts_with "034" s with
      | None => None
      | Some r0 =>
          match parse_string_body r0 with
          | None => None
          | Some (k, r1) =>
              match starts_with ":" (skip_ws r1) with
              | None => None
              | Some r2 =>
                  match parse_value f (skip_ws r2) with
                  | None => None
                  | Some (v, r3) =>
                      let acc' := dict_set acc k v in
                      match skip_ws r3 with
                      | String c r =>
                          if (code c =? 125)%N then Some (acc', r)
                          else if (code c =? 44)%N
                               then parse_members f (skip_ws r) acc'
                          else None
                      | EmptyString => None
                      end
                  end
              end
          end
      end
  end.

Definition loads (s : string) : option json :=
  match parse_value (2 * length s + 2) (skip_ws s) with
  | Some (v, rest) => if is_empty (skip_ws rest) then Some v else None
  | None => None
  end.

(** *** Iteration and subscription of a value *)

Fixpoint chars (s : string) : list json :=
  match s with
  | EmptyString => []
  | String c r => JStr (String c EmptyString) :: chars r
  end.

(** [for x in v]: the items of a list, the characters of a string, the
    keys of a dict; nothing else is iterable. *)
Definition iterate (v : json) : outcome (list json) :=
  match v with
  | JList l => Returns l
  | JStr s => Returns (chars s)
  | JDict d => Returns (map (fun kv => JStr (fst kv)) d)
  | _ => Raises TypeError
  end.

(** [v[k]] for a string key [k] *)
Definition subscript (v : json) (k : string) : outcome json :=
  match v with
  | JDict d =>
      match dict_get d k with
      | Some x => Returns x
      | None => Raises KeyError
      end
  | _ => Raises TypeError
  end.

(** [[f(x) for x in l]], stopping at the first exception *)
Fixpoint comprehension {A B} (f : A -> outcome B) (l : list A)
  : outcome (list B) :=
  match l with
  | [] => Returns []
  | x :: r =>
      match f x with
      | Raises e => Raises e
      | Returns y =>
          match comprehension f r with
          | Raises e => Raises e
          | Returns ys => Returns (y :: ys)
          end
      end
  end.

End Json.

(* ================================================================== *)
(** ** [hashlib.md5] *)
(* ================================================================== *)

Module Md5.
Import PyStr.
Local Open Scope N_scope.

(** [s.encode()]: UTF-8 of the code points below U+0100, none of which
    is a surrogate; [Unicode.encode] is the call on every [str]. *)
Fixpoint encode (s : string) : list N :=
  match s with
  | EmptyString => []
  | String c r =>
      let n := code c in
      if n <? 128 then n :: encode r
      else N.lor 192 (N.shiftr n 6) :: N.lor 128 (N.land n 63) :: encode r
  end.

Definition w32 (x : N) : N := N.land x 4294967295.
Definition not32 (x : N) : N := N.lxor (w32 x) 4294967295.
Definition rotl (x c : N) : N :=
  w32 (N.lor (N.shiftl x c) (N.shiftr (w32 x) (32 - c))).

Definition shifts : list N :=
  [7; 12; 17; 22; 7; 12; 17; 22; 7; 12; 17; 22; 7; 12; 17; 22;
   5; 9; 14; 20; 5; 9; 14; 20; 5; 9; 14; 20; 5; 9; 14; 20;
   4; 11; 16; 23; 4; 11; 16; 23; 4; 11; 16; 23; 4; 11; 16; 23;
   6; 10; 15; 21; 6; 10; 15; 21; 6; 10; 15; 21; 6; 10; 15; 21].

(** The integer parts of [2^32 * abs (sin (i + 1))]. *)
Definition sines : list N :=
  [3614090360; 3905402710; 606105819; 3250441966; 4118548399; 1200080426;
   2821735955; 4249261313; 1770035416; 2336552879; 4294925233; 2304563134;
   1804603682; 4254626195; 2792965006; 1236535329; 4129170786; 3225465664;
   643717713; 3921069994; 3593408605; 38016083; 3634488961; 3889429448;
   568446438; 3275163606; 4107603335; 1163531501; 2850285829; 4243563512;
   1735328473; 2368359562; 4294588738; 2272392833; 1839030562; 4259657740;
   2763975236; 1272893353; 4139469664; 3200236656; 681279174; 3936430074;
   3572445317; 76029189; 3654602809; 3873151461; 530742520; 3299628645;
   4096336452; 1126891415; 2878612391; 4237533241; 1700485571; 2399980690;
   4293915773; 2240044497; 1873313359; 4264355552; 2734768916; 1309151649;
   4149444226; 3174756917; 718787259; 3951481745].

Definition regs : Type := N * N * N * N.

Definition init : regs := (1732584193, 4023233417, 2562383102, 271733878).

Definition round (m : list N) (st : regs) (i : nat) : regs :=
  let '(a, b, c, d) := st in
  let j := N.of_nat i in
  let '(f, g) :=
    if j <? 16 then (N.lor (N.land b c) (N.land (not32 b) d), j)
    else if j <? 32 then
      (N.lor (N.land d b) (N.land (not32 d) c), (5 * j + 1) mod 16)
    else if j <? 48 then (N.lxor b (N.lxor c d), (3 * j + 5) mod 16)
    else (N.lxor c (N.lor b (not32 d)), (7 * j) mod 16) in
  let f' := w32 (f + a + nth i sines 0 + nth (N.to_nat g) m 0) in
  (d, w32 (b + rotl f' (nth i shifts 0)), b, c).

Definition compress (st : regs) (m : list N) : regs :=
  let '(a, b, c, d) := st in
  let '(a', b', c', d') := fold_left (round m) (seq 0 64) st in
  (w32 (a + a'), w32 (b + b'), w32 (c + c'), w32 (d + d')).

(** Little-endian bytes of a word and back. *)
Fixpoint le_bytes (k : nat) (x : N) : list N :=
  match k with
  | O => []
  | S k' => N.land x 255 :: le_bytes k' (N.shiftr x 8)
  end.

Fixpoint le_word (bs : list N) : N :=
  match bs with
  | [] => 0
  | b :: r => b + 256 * le_word r
  end.

(** Cut the padded message into blocks of sixteen 32-bit words. *)
Fixpoint words (fuel : nat) (bs : list N) : list N :=
  match fuel, bs with
  | S f, _ :: _ => le_word (firstn 4 bs) :: words f (skipn 4 bs)
  | _, _ => []
  end.

Fixpoint blocks (fuel : nat) (ws : list N) : list (list N) :=
  match fuel, ws with
  | S f, _ :: _ => firstn 16 ws :: blocks f (skipn 16 ws)
  | _, _ => []
  end.

Definition pad (bs : list N) : list N :=
  let len := List.length bs in
  let zeros := ((119 - len mod 64) mod 64)%nat in
  bs ++ [128] ++ repeat 0 zeros ++ le_bytes 8 (8 * N.of_nat len).

Definition digest (bs : list N) : list N :=
  let p := pad bs in
  let ws := words (List.length p) p in
  let '(a, b, c, d) := fold_left compress (blocks (List.length ws) ws) init in
  le_bytes 4 a ++ le_bytes 4 b ++ le_bytes 4 c ++ le_bytes 4 d.

(** [int(hashlib.md5(bs).hexdigest(), 16)] *)
Definition md5_int (bs : list N) : N :=
  fold_left (fun acc b => 256 * acc + b) (digest bs) 0.

End Md5.

(* ================================================================== *)
(** ** Methods as state-passing computations *)
(* ================================================================== *)

Module Run.

(** The hosted model is outside the program: what it answers may differ
    from one request to the next.  The world is the number of requests it
    has served. *)
Definition World : Type := nat.

(** A method body over an object of type [S]: it may read and update the
    object, advance the world, and return or raise. *)
Definition M (S A : Type) : Type := S -> World -> outcome A * S * World.

Definition ret {S A} (a : A) : M S A := fun s w => (Returns a, s, w).

Definition raise {S A} (e : exn) : M S A := fun s w => (Raises e, s, w).

Definition bind {S A B} (c : M S A) (k : A -> M S B) : M S B :=
  fun s w =>
    match c s w with
    | (Returns a, s', w') => k a s' w'
    | (Raises e, s', w') => (Raises e, s', w')
    end.

Definition get_self {S} : M S S := fun s w => (Returns s, s, w).

(** A pure call that may raise. *)
Definition lift {S A} (o : outcome A) : M S A := fun s w => (o, s, w).

(** [try: body / except Exception as e: handler e] *)
Definition try_except {S A} (body : M S A) (handler : exn -> M S A) : M S A :=
  fun s w =>
    match body s w with
    | (Raises e, s', w') => handler e s' w'
    | r => r
    end.

(** Run a method of a member object. *)
Definition within {S T A} (proj : S -> T) (upd : S -> T -> S) (c : M T A)
  : M S A :=
  fun s w => let '(r, t', w') := c (proj s) w in (r, upd s t', w').

Definition result {S A} (r : outcome A * S * World) : outcome A := fst (fst r).
Definition final {S A} (r : outcome A * S * World) : S := snd (fst r).
Definition world {S A} (r : outcome A * S * World) : World := snd r.

Module Notations.
Notation "x <- c ;; k" := (bind c (fun x => k))
  (at level 61, c at next level, right associativity).
End Notations.

End Run.

(* ================================================================== *)
(** ** [app/integrations/watsonx_ai.py] *)
(* ================================================================== *)

Module WatsonxAI.
Import PyStr Json Md5 Run Run.Notations.

(** The SDK's [ModelInference] handle.  [generate_text w prompt] is what
    the [w]-th request to the service does.  A reply that is not a [str]
    makes the two lines after the call raise, so it counts as raising. *)
Record ModelInference : Type := {
  generate_text : World -> string -> outcome string
}.

(** What the constructor reads from its surroundings. *)
Record Environ : Type := {
  getenv : string -> option string;
  WATSONX_AVAILABLE : bool;
  connect : forall (model_id url api_key project_id : string),
              outcome ModelInference
}.

Record t : Type := {
  api_key : option string;
  watsonx_url : string;
  project_id : option string;
  model_id : string;
  model : option ModelInference;
  use_stub : bool
}.

Definition default_model_id : string := "ibm/granite-3-8b-instruct".

(** [not v] for an optional string. *)
Definition unset (v : option string) : bool :=
  match v with
  | None => true
  | Some s => is_empty s
  end.

Definition text_of (v : option string) : string :=
  match v with Some s => s | None => EmptyString end.

Definition __init__ (env : Environ) (model_id : string) : t :=
  let api_key := getenv env "WATSONX_API_KEY" in
  let watsonx_url :=
    match getenv env "WATSONX_URL" with
    | Some u => u
    | None => "https://us-south.ml.cloud.ibm.com"
    end in
  let project_id := getenv env "WATSONX_PROJECT_ID" in
  let self (model : option ModelInference) (use_stub : bool) :=
    {| api_key := api_key; watsonx_url := watsonx_url;
       project_id := project_id; model_id := model_id;
       model := model; use_stub := use_stub |} in
  if unset api_key || unset project_id then self None true
  else if negb (WATSONX_AVAILABLE env) then self None true
  else
    match connect env model_id watsonx_url (text_of api_key) (text_of project_id) with
    | Returns m => self (Some m) false
    | Raises _ => self None true
    end.

Definition has_model (self : t) : bool :=
  match model self with Some _ => true | None => false end.

Definition _stub_generate (prompt : string) : string :=
  let prompt_lower := lower prompt in
  let prompt_hash := Z.of_N (md5_int (encode prompt)) in
  let seed_score := (prompt_hash mod 40 + 40)%Z in
  if contains "patentability" prompt_lower || contains "patentable" prompt_lower
  then
    let is_patentable :=
      contains "device" prompt_lower || contains "method" prompt_lower ||
      contains "system" prompt_lower || contains "process" prompt_lower in
    let confidence := (60 + prompt_hash mod 35)%Z in
    dumps (JDict
      [("isPatentable", JBool is_patentable);
       ("confidence", JInt (Z.min 95 confidence));
       ("reasoning",
        JStr ("Analysis indicates "
              ++ (if is_patentable then "patentable" else "publishable")
              ++ " disclosure"));
       ("missingElements",
        JList (if is_patentable then []
               else [JStr "Specific implementation details";
                     JStr "Manufacturing specifications"]));
       ("recommendations",
        JList [JStr "Review disclosure against prior art";
               JStr "Consider claim scope"])])
  else if contains "similarity" prompt_lower || contains "compare" prompt_lower
  then
    let innovation_count :=
      Z.of_nat (count "innovation" prompt_lower + count "feature" prompt_lower) in
    let base_score := (seed_score + innovation_count * 2)%Z in
    let similarity_score := Z.min 95 (Z.max 10 base_score) in
    dumps (JDict
      [("similarity_score", JFloat (inject_Z similarity_score));
       ("overlapping_concepts",
        JList (if (60 <? similarity_score)%Z
               then [JStr "Technical architecture similarity";
                     JStr "Implementation approach";
                     JStr "Performance optimization strategy"]
               else [JStr "Generic technological domain"]));
       ("key_differences",
        JList [JStr "Novel algorithm implementation";
               JStr "Enhanced efficiency metrics";
               JStr "Improved scaling approach"])])
  else if contains "innovation" prompt_lower || contains "extract" prompt_lower
  then
    let num_innovations := 3 + length prompt / 500 in
    let innovations :=
      map (fun i => JStr ("Technical innovation " ++ str_of_N (N.of_nat (i + 1))))
          (seq 0 (Nat.min 5 num_innovations)) in
    dumps (JList innovations)
  else if contains "invention disclosure" prompt_lower
          && contains "convert" prompt_lower
  then
    lines
      [EmptyString;
       "Title: Generated Invention Disclosure ("
         ++ str_of_Z (prompt_hash mod 1000) ++ ")";
       EmptyString;
       "Background:";
       "Technical innovation system designed for improved performance metrics.";
       EmptyString;
       "Key Innovations:";
       "1. Primary technical advancement for system efficiency";
       "2. Secondary optimization approach for resource management";
       "3. Tertiary enhancement for scalability";
       EmptyString;
       "Technical Details:";
       "- Performance improvement: "
         ++ str_of_Z (40 + prompt_hash mod 40) ++ "%";
       "- Complexity metric: O(n log n)";
       "- Resource efficiency: Enhanced";
       EmptyString]
  else
    "Analysis generated with dynamic response (seed: "
      ++ str_of_Z (prompt_hash mod 10000) ++ ")".

(** [self.model.generate_text(prompt=prompt)]: one request to the service. *)
Definition call_model (prompt : string) : M t string :=
  fun self w =>
    match model self with
    | Some m => (generate_text m w prompt, self, S w)
    | None => (Raises AttributeError, self, w)
    end.

Definition generate (prompt : string) (max_tokens : Z) (temperature : Q)
  : M t string :=
  self <- get_self ;;
  if use_stub self || negb (has_model self) then
    ret (_stub_generate prompt)
  else
    try_except
      (response <- call_model prompt ;;
       ret (strip response))
      (fun e => ret (_stub_generate prompt)).

(** [response.replace('```json', '').replace('```', '').strip()] *)
Definition clean (response : string) : string :=
  strip (replace "```" EmptyString (replace "```json" EmptyString response)).

(** [json.loads(cleaned)] *)
Definition json_loads {S} (cleaned : string) : M S json :=
  match loads cleaned with
  | Some v => ret v
  | None => raise JSONDecodeError
  end.

Definition generate_json (prompt : string) (max_tokens : Z) : M t json :=
  response <- generate prompt max_tokens (1 # 10) ;;
  let cleaned := clean response in
  (* the handler logs the text and raises the error again *)
  try_except (json_loads cleaned) (fun e => raise e).

Definition patentability_prompt (text : string) : string :=
  lines
    [EmptyString;
     "Analyze if this invention disclosure is PATENTABLE or just PUBLISHABLE research.";
     EmptyString;
     "PATENTABLE inventions have:";
     "- Specific device design, process steps, or method";
     "- Industrial application (can be manufactured/used)";
     "- Technical details (numbers, materials, configurations)";
     EmptyString;
     "PUBLISHABLE-ONLY research:";
     "- Only theory or experimental results";
     "- No specific implementation";
     "- Just observations or discoveries";
     EmptyString;
     "Disclosure (first 2000 chars):";
     EmptyString]
  ++ take 2000 text
  ++ lines
    [EmptyString;
     EmptyString;
     "Respond with ONLY valid JSON:";
     "{";
     "    " ++ dq ++ "isPatentable" ++ dq ++ ": true/false,";
     "    " ++ dq ++ "confidence" ++ dq ++ ": 0-100,";
     "    " ++ dq ++ "reasoning" ++ dq ++ ": " ++ dq ++ "brief explanation" ++ dq ++ ",";
     "    " ++ dq ++ "missingElements" ++ dq ++ ": ["
       ++ dq ++ "element1" ++ dq ++ ", " ++ dq ++ "element2" ++ dq ++ "],";
     "    " ++ dq ++ "recommendations" ++ dq ++ ": ["
       ++ dq ++ "add specific device details" ++ dq ++ ", "
       ++ dq ++ "define manufacturing process" ++ dq ++ "]";
     "}";
     EmptyString;
     "DO NOT include any text before or after the JSON.";
     EmptyString].

Definition assess_patentability (text : string) : M t json :=
  let prompt := patentability_prompt text in
  generate_json prompt 500.


End WatsonxAI.

(* ================================================================== *)
(** ** [app/ml_services/claim_extractor.py] *)
(* ================================================================== *)

Module ClaimExtractor.
Import PyStr Json Run Run.Notations.

(** The NLU wrapper lives in [app/integrations/watsonx_nlu.py]; the
    extractor only calls [analyze] on it. *)
Record WatsonxNLU : Type := {
  analyze : string -> outcome json
}.

Record t : Type := {
  watsonx_nlu : WatsonxNLU;
  watsonx_ai : WatsonxAI.t
}.

Definition __init__ (nlu : WatsonxNLU) (env : WatsonxAI.Environ) : t :=
  {| watsonx_nlu := nlu;
     watsonx_ai := WatsonxAI.__init__ env WatsonxAI.default_model_id |}.

(** [self.watsonx_ai.<method>(...)] *)
Definition ai {A} (c : M WatsonxAI.t A) : M t A :=
  within watsonx_ai
         (fun self a => {| watsonx_nlu := watsonx_nlu self; watsonx_ai := a |})
         c.

(** [self.watsonx_nlu.analyze(text)] *)
Definition nlu_analyze (text : string) : M t json :=
  fun self w => (analyze (watsonx_nlu self) text, self, w).

(** The dict [assess_patentability] returns. *)
Record Assessment : Type := {
  isPatentable : json;
  confidence : json;
  missingElements : json;
  recommendations : json
}.

(** The dict [extract] returns. *)
Record ExtractedClaims : Type := {
  background : string;
  innovations : list json;
  keywords : list json;
  ipcClassifications : list string
}.

Definition patentability_prompt (text : string) : string :=
  lines
    [EmptyString;
     "Analyze if this invention disclosure is PATENTABLE or just PUBLISHABLE research.";
     EmptyString;
     "PATENTABLE inventions have:";
     "- Specific device design, process steps, or method";
     "- Industrial application (can be manufactured/used)";
     "- Technical details (numbers, materials, configurations)";
     EmptyString;
     "PUBLISHABLE-ONLY research:";
     "- Only theory or experimental results";
     "- No specific implementation";
     "- Just observations or discoveries";
     EmptyString;
     "Disclosure (first 2000 chars):";
     EmptyString]
  ++ take 2000 text
  ++ lines
    [EmptyString;
     EmptyString;
     "Respond with ONLY valid JSON:";
     "{";
     "    " ++ dq ++ "isPatentable" ++ dq ++ ": true/false,";
     "    " ++ dq ++ "confidence" ++ dq ++ ": 0-100,";
     "    " ++ dq ++ "reasoning" ++ dq ++ ": " ++ dq ++ "brief explanation" ++ dq ++ ",";
     "    " ++ dq ++ "missingElements" ++ dq ++ ": ["
       ++ dq ++ "element1" ++ dq ++ ", " ++ dq ++ "element2" ++ dq ++ "],";
     "    " ++ dq ++ "recommendations" ++ dq ++ ": ["
       ++ dq ++ "add specific device details" ++ dq ++ ", "
       ++ dq ++ "define manufacturing process" ++ dq ++ "]";
     "}";
     EmptyString;
     "DO NOT include any text before or after the JSON.";
     EmptyString].

Definition fallback_assessment : Assessment :=
  {| isPatentable := JBool true;
     confidence := JInt 60;
     missingElements := JList [];
     recommendations :=
       JList [JStr "Manual review recommended - automated assessment failed"] |}.

Definition assess_patentability (text : string) : M t Assessment :=
  let prompt := patentability_prompt text in
  try_except
    (response <- ai (WatsonxAI.generate prompt 500 (3 # 10)) ;;
     let cleaned := WatsonxAI.clean response in
     result <- WatsonxAI.json_loads cleaned ;;
     is_patentable <- lift (get result "isPatentable" (JBool true)) ;;
     conf <- lift (get result "confidence" (JInt 50)) ;;
     missing <- lift (get result "missingElements" (JList [])) ;;
     recs <- lift (get result "recommendations" (JList [])) ;;
     ret {| isPatentable := is_patentable;
            confidence := conf;
            missingElements := missing;
            recommendations := recs |})
    (fun e => ret fallback_assessment).

Definition patterns : list string :=
  ["background"; "prior art"; "field of invention"; "technical field";
   "problem"; "introduction"; "overview"].

(** The [for pattern in patterns] loop; [None] when it falls through. *)
Fixpoint scan_patterns (text text_lower : string) (ps : list string)
  : outcome (option string) :=
  match ps with
  | [] => Returns None
  | pattern :: rest =>
      if contains pattern text_lower then
        match index_of pattern text_lower with
        | None => Raises ValueError
        | Some start =>
            let background := strip (slice start (start + 500) text) in
            if negb (is_empty background) then Returns (Some background)
            else scan_patterns text text_lower rest
        end
      else scan_patterns text text_lower rest
  end.

Definition _extract_background (text : string) : outcome string :=
  if is_empty text then Returns "No disclosure text provided"
  else
    let text_lower := lower text in
    match scan_patterns text text_lower patterns with
    | Raises e => Raises e
    | Returns (Some background) => Returns background
    | Returns None =>
        let background := strip (take 300 text) in
        Returns (if negb (is_empty background) then background
                 else "Technical disclosure provided")
    end.

Definition innovations_prompt (text : string) : string :=
  lines
    [EmptyString;
     "Extract the 3-5 key technical innovations from this disclosure.";
     "Focus on WHAT is new, not WHY it's important.";
     EmptyString;
     "Disclosure:";
     EmptyString]
  ++ take 1500 text
  ++ lines
    [EmptyString;
     EmptyString;
     "Return JSON list:";
     "[" ++ dq ++ "Innovation 1" ++ dq ++ ", "
         ++ dq ++ "Innovation 2" ++ dq ++ ", ...]";
     EmptyString].

Definition _extract_innovations (text : string) (nlu_result : json)
  : M t (list json) :=
  let prompt := innovations_prompt text in
  try_except
    (response <- ai (WatsonxAI.generate prompt 500 (3 # 10)) ;;
     let cleaned := WatsonxAI.clean response in
     innovations <- WatsonxAI.json_loads cleaned ;;
     match innovations with
     | JList (x :: l) => ret (x :: l)
     | _ => raise ValueError
     end)
    (fun e => ret [JStr "Innovation extraction failed - manual review needed"]).

Definition ipc_mapping : list (string * list string) :=
  [("battery", ["H01M10/05"]);
   ("electrolyte", ["H01M10/0562"]);
   ("lithium", ["H01M10/0525"]);
   ("drug", ["A61K31"]);
   ("pharmaceutical", ["A61K"]);
   ("neural network", ["G06N3/08"]);
   ("machine learning", ["G06N20/00"]);
   ("sensor", ["G01D5/00"]);
   ("semiconductor", ["H01L29/00"]);
   ("database", ["G06F16"]);
   ("communication", ["H04L"]);
   ("wireless", ["H04W"]);
   ("software", ["G06F"]);
   ("algorithm", ["G06F"]);
   ("network", ["H04L"]);
   ("medical", ["A61"]);
   ("chemical", ["C01"]);
   ("polymer", ["C08"]);
   ("metal", ["C22"]);
   ("engine", ["F02"]);
   ("mechanical", ["F16"]);
   ("display", ["G09"]);
   ("optics", ["G02"])].

(** A [set] of strings: a list without repetition. *)
Definition set_add (x : string) (codes : list string) : list string :=
  if existsb (String.eqb x) codes then codes else codes ++ [x].

(** [codes.update(ipc_codes)] *)
Definition update (codes ipc_codes : list string) : list string :=
  fold_left (fun acc c => set_add c acc) ipc_codes codes.

(** [sorted(...)] on strings: code-point order. *)
Fixpoint insert (x : string) (l : list string) : list string :=
  match l with
  | [] => [x]
  | y :: r => if String.leb x y then x :: l else y :: insert x r
  end.

Definition sorted (l : list string) : list string := fold_right insert [] l.

(** The inner loop over [ipc_mapping.items()]. *)
Definition scan_terms (keyword_lower : string) (codes : list string)
  : list string :=
  fold_left
    (fun acc entry =>
       let '(term, ipc_codes) := entry in
       if contains term keyword_lower then update acc ipc_codes else acc)
    ipc_mapping codes.

(** The outer loop; [keyword.lower()] exists on strings only. *)
Fixpoint scan_keywords (kws : list json) (codes : list string)
  : outcome (list string) :=
  match kws with
  | [] => Returns codes
  | JStr keyword :: rest =>
      let keyword_lower := lower keyword in
      scan_keywords rest (scan_terms keyword_lower codes)
  | _ :: _ => Raises AttributeError
  end.

Definition _classify_ipc (kws : list json) : outcome (list string) :=
  match scan_keywords kws [] with
  | Raises e => Raises e
  | Returns codes =>
      let codes := match codes with [] => ["G06F"] | _ => codes end in
      Returns (sorted codes)
  end.

Definition extract (text : string) : M t ExtractedClaims :=
  bg <- lift (_extract_background text) ;;
  nlu_result <- nlu_analyze text ;;
  innovs <- _extract_innovations text nlu_result ;;
  kw_items <- lift (match get nlu_result "keywords" (JList []) with
                    | Returns v => iterate v
                    | Raises e => Raises e
                    end) ;;
  kw_texts <- lift (comprehension (fun kw => subscript kw "text") kw_items) ;;
  let kws := firstn 20 kw_texts in
  ipc_codes <- lift (_classify_ipc kws) ;;
  ret {| background := bg;
         innovations :=
           match innovs with
           | [] => [JStr "Innovation extraction pending"]
           | _ => innovs
           end;
         keywords :=
           match kws with
           | [] => [JStr "disclosure"; JStr "analysis"]
           | _ => kws
           end;
         ipcClassifications :=
           match ipc_codes with
           | [] => ["G06F"]
           | _ => ipc_codes
           end |}.

End ClaimExtractor.

(* ================================================================== *)
(** ** The two classes over every Python [str]

    The modules above read a [str] as a [string], whose characters stop
    at U+00FF.  Three things the program does depend on what lies
    beyond that range: [prompt.encode()] raises [UnicodeEncodeError] on
    a lone surrogate, [str.lower] can change the length of a text
    (U+0130 becomes two characters), and [json.loads] returns strings
    with any character and can raise errors other than
    [JSONDecodeError].  In this module a [str] is a list of code points,
    and the case tables behind [str.lower] and the decoder [json.loads]
    are parameters ([Runtime]): nothing is assumed about them unless a
    statement says so. *)
(* ================================================================== *)

Module Unicode.
Import Json Run Run.Notations.

(** A [str]: its code points, lone surrogates included. *)
Definition str : Type := list N.

(** A [string] of the modules above, as a [str]. *)
Fixpoint widen (s : string) : str :=
  match s with
  | EmptyString => []
  | String c r => PyStr.code c :: widen r
  end.

Definition is_empty (s : str) : bool :=
  match s with [] => true | _ :: _ => false end.

(** [a == b] *)
Fixpoint eqb (a b : str) : bool :=
  match a, b with
  | [], [] => true
  | x :: a', y :: b' => (x =? y)%N && eqb a' b'
  | _, _ => false
  end.

(** [s.startswith(p)] *)
Fixpoint prefix (p s : str) : bool :=
  match p, s with
  | [], _ => true
  | _ :: _, [] => false
  | a :: p', b :: s' => (a =? b)%N && prefix p' s'
  end.

(** [sub in s] *)
Fixpoint contains (sub s : str) : bool :=
  prefix sub s ||
  match s with
  | [] => false
  | _ :: r => contains sub r
  end.

(** [s.index(sub)], [None] standing for [ValueError]. *)
Fixpoint index_of (sub s : str) : option nat :=
  if prefix sub s then Some 0
  else match s with
       | [] => None
       | _ :: r => option_map S (index_of sub r)
       end.

(** [s.count(sub)] *)
Fixpoint count_from (sub s : str) (skip : nat) : nat :=
  match s with
  | [] => 0
  | _ :: r =>
      match skip with
      | S k => count_from sub r k
      | O => if prefix sub s
             then S (count_from sub r (List.length sub - 1))
             else count_from sub r 0
      end
  end.

Definition count (sub s : str) : nat :=
  if is_empty sub then S (List.length s) else count_from sub s 0.

(** [s.replace(old, new)] *)
Fixpoint replace_from (old new s : str) (skip : nat) : str :=
  match s with
  | [] => []
  | c :: r =>
      match skip with
      | S k => replace_from old new r k
      | O => if prefix old s
             then (new ++ replace_from old new r (List.length old - 1))%list
             else c :: replace_from old new r 0
      end
  end.

Fixpoint intersperse (new s : str) : str :=
  match s with
  | [] => new
  | c :: r => (new ++ c :: intersperse new r)%list
  end.

Definition replace (old new s : str) : str :=
  if is_empty old then intersperse new s else replace_from old new s 0.

(** [str.isspace] of one character: U+0009..U+000D, U+001C..U+0020,
    U+0085, U+00A0, U+1680, U+2000..U+200A, U+2028, U+2029, U+202F,
    U+205F and U+3000. *)
Definition is_space (c : N) : bool :=
  ((9 <=? c) && (c <=? 13) || (28 <=? c) && (c <=? 32) ||
   (c =? 133) || (c =? 160) || (c =? 5760) ||
   (8192 <=? c) && (c <=? 8202) || (c =? 8232) || (c =? 8233) ||
   (c =? 8239) || (c =? 8287) || (c =? 12288))%N.

(** [s.strip()] *)
Fixpoint lstrip (s : str) : str :=
  match s with
  | [] => []
  | c :: r => if is_space c then lstrip r else s
  end.

Fixpoint rstrip (s : str) : str :=
  match s with
  | [] => []
  | c :: r =>
      let r' := rstrip r in
      if is_space c && is_empty r' then [] else c :: r'
  end.

Definition strip (s : str) : str := rstrip (lstrip s).

(** [s[:n]] and [s[a:b]] with non-negative bounds. *)
Definition take (n : nat) (s : str) : str := firstn n s.
Definition drop (n : nat) (s : str) : str := skipn n s.
Definition slice (a b : nat) (s : str) : str := take (b - a) (drop a s).

(** [s.encode()]: UTF-8.  The code points U+D800..U+DFFF, which a [str]
    may hold, have no encoding. *)
Definition is_surrogate (c : N) : bool := ((55296 <=? c) && (c <=? 57343))%N.

Definition utf8 (c : N) : list N :=
  if (c <? 128)%N then [c]
  else if (c <? 2048)%N then
    [N.lor 192 (N.shiftr c 6); N.lor 128 (N.land c 63)]
  else if (c <? 65536)%N then
    [N.lor 224 (N.shiftr c 12);
     N.lor 128 (N.land (N.shiftr c 6) 63);
     N.lor 128 (N.land c 63)]
  else
    [N.lor 240 (N.shiftr c 18);
     N.lor 128 (N.land (N.shiftr c 12) 63);
     N.lor 128 (N.land (N.shiftr c 6) 63);
     N.lor 128 (N.land c 63)].

Fixpoint encode (s : str) : outcome (list N) :=
  match s with
  | [] => Returns []
  | c :: r =>
      if is_surrogate c then Raises UnicodeEncodeError
      else match encode r with
           | Returns bs => Returns (utf8 c ++ bs)%list
           | Raises e => Raises e
           end
  end.

(** A Python [float]: a finite binary64 number, given by its value, an
    infinity or a NaN. *)
Inductive float : Type :=
| Finite (q : Q)
| Infinite (negative : bool)
| NotANumber.

(** What [json.loads] can return. *)
#[warnings="-register-all"]
Inductive value : Type :=
| VNone
| VBool (b : bool)
| VInt (z : Z)
| VFloat (x : float)
| VStr (s : str)
| VList (l : list value)
| VDict (d : list (str * value)).

(** A [dict]: insertion-ordered, one entry per key. *)
Fixpoint dict_get (d : list (str * value)) (k : str) : option value :=
  match d with
  | [] => None
  | (k', v) :: r => if eqb k' k then Some v else dict_get r k
  end.

(** [obj.get(k, default)]; only a [dict] has the method. *)
Definition get (obj : value) (k : str) (default : value) : outcome value :=
  match obj with
  | VDict d => Returns (match dict_get d k with Some v => v | None => default end)
  | _ => Raises AttributeError
  end.

(** The library calls that are taken as given. *)
Record Runtime : Type := {
  (** [s.lower()] *)
  str_lower : str -> str;
  (** [json.loads(s)]: the value, or the exception it raises *)
  json_loads : str -> outcome value
}.

(** *** [app/integrations/watsonx_ai.py] *)

Module WatsonxAI.

Record ModelInference : Type := {
  generate_text : World -> str -> outcome str
}.

Record t : Type := {
  api_key : option str;
  watsonx_url : str;
  project_id : option str;
  model_id : str;
  model : option ModelInference;
  use_stub : bool
}.

Definition has_model (self : t) : bool :=
  match model self with Some _ => true | None => false end.

(** Every text the stub prints is ASCII; it is written as a [string]
    and widened at the end.  [prompt.encode()] is the one call in the
    body that can raise. *)
Definition _stub_generate (rt : Runtime) (prompt : str) : outcome str :=
  let prompt_lower := str_lower rt prompt in
  match encode prompt with
  | Raises e => Raises e
  | Returns encoded =>
  let prompt_hash := Z.of_N (Md5.md5_int encoded) in
  let seed_score := (prompt_hash mod 40 + 40)%Z in
  Returns (widen (
  if contains (widen "patentability") prompt_lower
     || contains (widen "patentable") prompt_lower
  then
    let is_patentable :=
      contains (widen "device") prompt_lower
      || contains (widen "method") prompt_lower
      || contains (widen "system") prompt_lower
      || contains (widen "process") prompt_lower in
    let confidence := (60 + prompt_hash mod 35)%Z in
    dumps (JDict
      [("isPatentable", JBool is_patentable);
       ("confidence", JInt (Z.min 95 confidence));
       ("reasoning",
        JStr ("Analysis indicates "
              ++ (if is_patentable then "patentable" else "publishable")
              ++ " disclosure"));
       ("missingElements",
        JList (if is_patentable then []
               else [JStr "Specific implementation details";
                     JStr "Manufacturing specifications"]));
       ("recommendations",
        JList [JStr "Review disclosure against prior art";
               JStr "Consider claim scope"])])
  else if contains (widen "similarity") prompt_lower
          || contains (widen "compare") prompt_lower
  then
    let innovation_count :=
      Z.of_nat (count (widen "innovation") prompt_lower
                + count (widen "feature") prompt_lower) in
    let base_score := (seed_score + innovation_count * 2)%Z in
    let similarity_score := Z.min 95 (Z.max 10 base_score) in
    dumps (JDict
      [("similarity_score", JFloat (inject_Z similarity_score));
       ("overlapping_concepts",
        JList (if (60 <? similarity_score)%Z
               then [JStr "Technical architecture similarity";
                     JStr "Implementation approach";
                     JStr "Performance optimization strategy"]
               else [JStr "Generic technological domain"]));
       ("key_differences",
        JList [JStr "Novel algorithm implementation";
               JStr "Enhanced efficiency metrics";
               JStr "Improved scaling approach"])])
  else if contains (widen "innovation") prompt_lower
          || contains (widen "extract") prompt_lower
  then
    let num_innovations := 3 + List.length prompt / 500 in
    let innovations :=
      map (fun i => JStr ("Technical innovation "
                          ++ PyStr.str_of_N (N.of_nat (i + 1))))
          (seq 0 (Nat.min 5 num_innovations)) in
    dumps (JList innovations)
  else if contains (widen "invention disclosure") prompt_lower
          && contains (widen "convert") prompt_lower
  then
    PyStr.lines
      [EmptyString;
       "Title: Generated Invention Disclosure ("
         ++ PyStr.str_of_Z (prompt_hash mod 1000) ++ ")";
       EmptyString;
       "Background:";
       "Technical innovation system designed for improved performance metrics.";
       EmptyString;
       "Key Innovations:";
       "1. Primary technical advancement for system efficiency";
       "2. Secondary optimization approach for resource management";
       "3. Tertiary enhancement for scalability";
       EmptyString;
       "Technical Details:";
       "- Performance improvement: "
         ++ PyStr.str_of_Z (40 + prompt_hash mod 40) ++ "%";
       "- Complexity metric: O(n log n)";
       "- Resource efficiency: Enhanced";
       EmptyString]
  else
    "Analysis generated with dynamic response (seed: "
      ++ PyStr.str_of_Z (prompt_hash mod 10000) ++ ")"))
  end.

(** [self.model.generate_text(prompt=prompt)]: one request to the service. *)
Definition call_model (prompt : str) : M t str :=
  fun self w =>
    match model self with
    | Some m => (generate_text m w prompt, self, S w)
    | None => (Raises AttributeError, self, w)
    end.

(** The call of the stub at line 121 is outside the [try]; the one at
    line 136 is inside the handler.  What either raises leaves
    [generate]. *)
Definition generate (rt : Runtime) (prompt : str) (max_tokens : Z)
    (temperature : Q) : M t str :=
  self <- get_self ;;
  if use_stub self || negb (has_model self) then
    lift (_stub_generate rt prompt)
  else
    try_except
      (response <- call_model prompt ;;
       ret (strip response))
      (fun e => lift (_stub_generate rt prompt)).

(** [response.replace('```json', '').replace('```', '').strip()] *)
Definition clean (response : str) : str :=
  strip (replace (widen "```") [] (replace (widen "```json") [] response)).

Definition generate_json (rt : Runtime) (prompt : str) (max_tokens : Z)
  : M t value :=
  response <- generate rt prompt max_tokens (1 # 10) ;;
  let cleaned := clean response in
  (* the handler logs the text and raises the error again; an exception
     of another class passes the handler by *)
  try_except (lift (json_loads rt cleaned)) (fun e => raise e).

Definition patentability_prompt (text : str) : str :=
  (widen (PyStr.lines
    [EmptyString;
     "Analyze if this invention disclosure is PATENTABLE or just PUBLISHABLE research.";
     EmptyString;
     "PATENTABLE inventions have:";
     "- Specific device design, process steps, or method";
     "- Industrial application (can be manufactured/used)";
     "- Technical details (numbers, materials, configurations)";
     EmptyString;
     "PUBLISHABLE-ONLY research:";
     "- Only theory or experimental results";
     "- No specific implementation";
     "- Just observations or discoveries";
     EmptyString;
     "Disclosure (first 2000 chars):";
     EmptyString]%string)
  ++ take 2000 text
  ++ widen (PyStr.lines
    [EmptyString;
     EmptyString;
     "Respond with ONLY valid JSON:";
     "{";
     "    " ++ PyStr.dq ++ "isPatentable" ++ PyStr.dq ++ ": true/false,";
     "    " ++ PyStr.dq ++ "confidence" ++ PyStr.dq ++ ": 0-100,";
     "    " ++ PyStr.dq ++ "reasoning" ++ PyStr.dq ++ ": "
       ++ PyStr.dq ++ "brief explanation" ++ PyStr.dq ++ ",";
     "    " ++ PyStr.dq ++ "missingElements" ++ PyStr.dq ++ ": ["
       ++ PyStr.dq ++ "element1" ++ PyStr.dq ++ ", "
       ++ PyStr.dq ++ "element2" ++ PyStr.dq ++ "],";
     "    " ++ PyStr.dq ++ "recommendations" ++ PyStr.dq ++ ": ["
       ++ PyStr.dq ++ "add specific device details" ++ PyStr.dq ++ ", "
       ++ PyStr.dq ++ "define manufacturing process" ++ PyStr.dq ++ "]";
     "}";
     EmptyString;
     "DO NOT include any text before or after the JSON.";
     EmptyString]%string))%list.

Definition assess_patentability (rt : Runtime) (text : str) : M t value :=
  let prompt := patentability_prompt text in
  generate_json rt prompt 500.

End WatsonxAI.

(** *** [app/ml_services/claim_extractor.py] *)

Module ClaimExtractor.

Record WatsonxNLU : Type := {
  analyze : str -> outcome value
}.

Record t : Type := {
  watsonx_nlu : WatsonxNLU;
  watsonx_ai : WatsonxAI.t
}.

(** [self.watsonx_ai.<method>(...)] *)
Definition ai {A} (c : M WatsonxAI.t A) : M t A :=
  within watsonx_ai
         (fun self a => {| watsonx_nlu := watsonx_nlu self; watsonx_ai := a |})
         c.

(** The dict [assess_patentability] returns. *)
Record Assessment : Type := {
  isPatentable : value;
  confidence : value;
  missingElements : value;
  recommendations : value
}.

Definition patentability_prompt (text : str) : str :=
  (widen (PyStr.lines
    [EmptyString;
     "Analyze if this invention disclosure is PATENTABLE or just PUBLISHABLE research.";
     EmptyString;
     "PATENTABLE inventions have:";
     "- Specific device design, process steps, or method";
     "- Industrial application (can be manufactured/used)";
     "- Technical details (numbers, materials, configurations)";
     EmptyString;
     "PUBLISHABLE-ONLY research:";
     "- Only theory or experimental results";
     "- No specific implementation";
     "- Just observations or discoveries";
     EmptyString;
     "Disclosure (first 2000 chars):";
     EmptyString]%string)
  ++ take 2000 text
  ++ widen (PyStr.lines
    [EmptyString;
     EmptyString;
     "Respond with ONLY valid JSON:";
     "{";
     "    " ++ PyStr.dq ++ "isPatentable" ++ PyStr.dq ++ ": true/false,";
     "    " ++ PyStr.dq ++ "confidence" ++ PyStr.dq ++ ": 0-100,";
     "    " ++ PyStr.dq ++ "reasoning" ++ PyStr.dq ++ ": "
       ++ PyStr.dq ++ "brief explanation" ++ PyStr.dq ++ ",";
     "    " ++ PyStr.dq ++ "missingElements" ++ PyStr.dq ++ ": ["
       ++ PyStr.dq ++ "element1" ++ PyStr.dq ++ ", "
       ++ PyStr.dq ++ "element2" ++ PyStr.dq ++ "],";
     "    " ++ PyStr.dq ++ "recommendations" ++ PyStr.dq ++ ": ["
       ++ PyStr.dq ++ "add specific device details" ++ PyStr.dq ++ ", "
       ++ PyStr.dq ++ "define manufacturing process" ++ PyStr.dq ++ "]";
     "}";
     EmptyString;
     "DO NOT include any text before or after the JSON.";
     EmptyString]%string))%list.

Definition fallback_assessment : Assessment :=
  {| isPatentable := VBool true;
     confidence := VInt 60;
     missingElements := VList [];
     recommendations :=
       VList [VStr (widen
                "Manual review recommended - automated assessment failed")] |}.

Definition assess_patentability (rt : Runtime) (text : str) : M t Assessment :=
  let prompt := patentability_prompt text in
  try_except
    (response <- ai (WatsonxAI.generate rt prompt 500 (3 # 10)) ;;
     let cleaned := WatsonxAI.clean response in
     result <- lift (json_loads rt cleaned) ;;
     is_patentable <- lift (get result (widen "isPatentable") (VBool true)) ;;
     conf <- lift (get result (widen "confidence") (VInt 50)) ;;
     missing <- lift (get result (widen "missingElements") (VList [])) ;;
     recs <- lift (get result (widen "recommendations") (VList [])) ;;
     ret {| isPatentable := is_patentable;
            confidence := conf;
            missingElements := missing;
            recommendations := recs |})
    (fun e => ret fallback_assessment).

Definition patterns : list str :=
  map widen
      ["background"; "prior art"; "field of invention"; "technical field";
       "problem"; "introduction"; "overview"].

(** The [for pattern in patterns] loop; [None] when it falls through. *)
Fixpoint scan_patterns (text text_lower : str) (ps : list str)
  : outcome (option str) :=
  match ps with
  | [] => Returns None
  | pattern :: rest =>
      if contains pattern text_lower then
        match index_of pattern text_lower with
        | None => Raises ValueError
        | Some start =>
            let background := strip (slice start (start + 500) text) in
            if negb (is_empty background) then Returns (Some background)
            else scan_patterns text text_lower rest
        end
      else scan_patterns text text_lower rest
  end.

Definition _extract_background (rt : Runtime) (text : str) : outcome str :=
  if is_empty text then Returns (widen "No disclosure text provided")
  else
    let text_lower := str_lower rt text in
    match scan_patterns text text_lower patterns with
    | Raises e => Raises e
    | Returns (Some background) => Returns background
    | Returns None =>
        let background := strip (take 300 text) in
        Returns (if negb (is_empty background) then background
                 else widen "Technical disclosure provided")
    end.

End ClaimExtractor.

End Unicode.

(* ================================================================== *)
(** ** Vocabulary of the statements *)
(* ================================================================== *)

Import PyStr Json Run.

(** The three-backtick marker, and [s.replace(fence, '')]. *)
Definition fence : string := "```".

Definition unfence (s : string) : string := replace_from fence EmptyString s 0.

Section StubVocabulary.
Import WatsonxAI Md5.

(** The digest [_stub_generate] derives its numbers from. *)
Definition prompt_hash (prompt : string) : Z := Z.of_N (md5_int (encode prompt)).

(** The two dicts [_stub_generate] serialises. *)
Definition patentability_reply (is_patentable : bool) (conf : Z) : json :=
  JDict
    [("isPatentable", JBool is_patentable);
     ("confidence", JInt conf);
     ("reasoning",
      JStr ("Analysis indicates "
            ++ (if is_patentable then "patentable" else "publishable")
            ++ " disclosure"));
     ("missingElements",
      JList (if is_patentable then []
             else [JStr "Specific implementation details";
                   JStr "Manufacturing specifications"]));
     ("recommendations",
      JList [JStr "Review disclosure against prior art";
             JStr "Consider claim scope"])].

Definition similarity_reply (score : Z) : json :=
  JDict
    [("similarity_score", JFloat (inject_Z score));
     ("overlapping_concepts",
      JList (if (60 <? score)%Z
             then [JStr "Technical architecture similarity";
                   JStr "Implementation approach";
                   JStr "Performance optimization strategy"]
             else [JStr "Generic technological domain"]));
     ("key_differences",
      JList [JStr "Novel algorithm implementation";
             JStr "Enhanced efficiency metrics";
             JStr "Improved scaling approach"])].



End StubVocabulary.

Section ExtractorVocabulary.
Import ClaimExtractor.

(** Code-point order on strings, strict. *)
Definition str_lt (a b : string) : Prop := String.ltb a b = true.

(** [c] is one of the codes of a table entry whose term occurs in the
    lowercased form of one of the keywords. *)
Definition hit (kws : list string) (c : string) : Prop :=
  exists kw term cs,
    In kw kws /\ In (term, cs) ipc_mapping /\
    contains term (lower kw) = true /\ In c cs.

(** One pass over a table [m] for one lowercased keyword. *)
Definition pass (kl : string) :=
  fun (acc : list string) (entry : string * list string) =>
    let '(term, ipc_codes) := entry in
    if contains term kl then update acc ipc_codes else acc.

(** The codes the table lists under [term]. *)
Definition entry_codes (term : string) : list string :=
  flat_map (fun e : string * list string =>
              if String.eqb (fst e) term then snd e else [])
           ipc_mapping.

(** The value under a key, or [default] when the key is absent. *)
Definition or_default (o : option json) (default : json) : json :=
  match o with Some v => v | None => default end.


(** What [_extract_innovations] makes of the text [generate] returned. *)
Definition innovations_of (response : string) : list json :=
  match loads (WatsonxAI.clean response) with
  | Some (JList (x :: l)) => x :: l
  | _ => [JStr "Innovation extraction failed - manual review needed"]
  end.

(** The string a keyword item carries under [text], if it is a mapping
    that has one. *)
Definition item_text (item : json) : option string :=
  match item with
  | JDict d =>
      match dict_get d "text" with
      | Some (JStr s) => Some s
      | _ => None
      end
  | _ => None
  end.

Fixpoint item_texts (items : list json) : option (list string) :=
  match items with
  | [] => Some []
  | item :: rest =>
      match item_text item, item_texts rest with
      | Some s, Some ss => Some (s :: ss)
      | _, _ => None
      end
  end.

(** Modelled from the spec: the NLU wrapper
    ([app/integrations/watsonx_nlu.py]) is not among the sources; its
    contract is that [analyze] returns a mapping whose [keywords] entry
    is a list of mappings, each with a string under [text].
    [nlu_keywords o] is the list of those strings when the outcome [o] of
    [analyze] keeps to the contract (a mapping without [keywords] has
    none), and [None] otherwise. *)
Definition nlu_keywords (o : outcome json) : option (list string) :=
  match o with
  | Returns (JDict d) =>
      match dict_get d "keywords" with
      | None => Some []
      | Some (JList items) => item_texts items
      | Some _ => None
      end
  | _ => None
  end.

(** The record [extract] builds from its four ingredients. *)
Definition claims_of (bg : string) (response : string) (kws codes : list string)
  : ExtractedClaims :=
  {| background := bg;
     innovations := innovations_of response;
     keywords :=
       match firstn 20 kws with
       | [] => [JStr "disclosure"; JStr "analysis"]
       | _ => map JStr (firstn 20 kws)
       end;
     ipcClassifications := codes |}.

(** None of the four fields is empty. *)
Definition nonempty_claims (r : ExtractedClaims) : Prop :=
  background r <> EmptyString /\ innovations r <> [] /\
  keywords r <> [] /\ ipcClassifications r <> [].

(** No credentials in the environment: the constructor selects the stub. *)
Definition bare_environ : WatsonxAI.Environ :=
  {| WatsonxAI.getenv := fun _ => None;
     WatsonxAI.WATSONX_AVAILABLE := true;
     WatsonxAI.connect :=
       fun _ _ _ _ => Raises (ServiceError "no credentials") |}.

(** Credentials and SDK present; connecting yields the handle [m]. *)
Definition environ_with (m : WatsonxAI.ModelInference) : WatsonxAI.Environ :=
  {| WatsonxAI.getenv :=
       fun name =>
         if String.eqb name "WATSONX_API_KEY" then Some "key"
         else if String.eqb name "WATSONX_PROJECT_ID" then Some "project"
         else None;
     WatsonxAI.WATSONX_AVAILABLE := true;
     WatsonxAI.connect := fun _ _ _ _ => Returns m |}.

(** A hosted model that answers every request with [reply]. *)
Definition always (reply : string) : WatsonxAI.ModelInference :=
  {| WatsonxAI.generate_text := fun _ _ => Returns reply |}.

(** A hosted model whose first request times out and which answers
    afterwards. *)
Definition flaky (reply : string) : WatsonxAI.ModelInference :=
  {| WatsonxAI.generate_text :=
       fun w _ =>
         match w with
         | O => Raises (ServiceError "timeout")
         | S _ => Returns reply
         end |}.

Definition nlu_returning (v : json) : WatsonxNLU :=
  {| analyze := fun _ => Returns v |}.

Definition nlu_down : WatsonxNLU :=
  {| analyze := fun _ => Raises (ServiceError "NLU unavailable") |}.

Definition stub_extractor (nlu : WatsonxNLU) : t := __init__ nlu bare_environ.

Definition client_of (m : WatsonxAI.ModelInference) : WatsonxAI.t :=
  WatsonxAI.__init__ (environ_with m) WatsonxAI.default_model_id.

Definition overconfident_reply : string :=
  "{" ++ dq ++ "confidence" ++ dq ++ ": 150}".

Definition fenced_reply : string :=
  "```json" ++ nl ++ "{" ++ dq ++ "a" ++ dq ++ ":1}" ++ nl ++ "```".

End ExtractorVocabulary.

Section MoreVocabulary.
Import WatsonxAI.

(** The items the stub's innovation branch can list. *)
Definition five_innovations : list json :=
  [JStr "Technical innovation 1"; JStr "Technical innovation 2";
   JStr "Technical innovation 3"; JStr "Technical innovation 4";
   JStr "Technical innovation 5"].





(** [bg] occurs in [text] as it stands. *)
Definition verbatim (bg text : string) : Prop :=
  exists before after, text = before ++ bg ++ after.

(** Every character is white space. *)
Fixpoint blank (s : string) : bool :=
  match s with
  | EmptyString => true
  | String c r => is_space c && blank r
  end.

(** The last character, if any. *)
Fixpoint last_char (s : string) : option ascii :=
  match s with
  | EmptyString => None
  | String c EmptyString => Some c
  | String _ r => last_char r
  end.

(** A marker that stripping cannot shorten: it begins and ends with a
    character that is not white space, and fits in 500 characters. *)
Definition solid (p : string) : bool :=
  match p, last_char p with
  | String c _, Some d =>
      negb (is_space c) && negb (is_space d) && Nat.leb (length p) 500
  | _, _ => false
  end.

End MoreVocabulary.

Section UnicodeVocabulary.

(** The Python literal ['\ud800 patentable']: a lone surrogate, a space
    and one word. *)
Definition lone_surrogate_prompt : Unicode.str :=
  55296%N :: Unicode.widen " patentable".

Definition has_surrogate (s : Unicode.str) : bool :=
  existsb Unicode.is_surrogate s.

(** Generation goes through the stub responder. *)
Definition reaches_stub (self : Unicode.WatsonxAI.t) (w : World)
    (prompt : Unicode.str) : Prop :=
  Unicode.WatsonxAI.use_stub self = true \/
  Unicode.WatsonxAI.model self = None \/
  exists m e, Unicode.WatsonxAI.model self = Some m /\
              Unicode.WatsonxAI.generate_text m w prompt = Raises e.

(** What [WatsonxAI()] is without credentials in the environment. *)
Definition stub_client : Unicode.WatsonxAI.t :=
  {| Unicode.WatsonxAI.api_key := None;
     Unicode.WatsonxAI.watsonx_url :=
       Unicode.widen "https://us-south.ml.cloud.ibm.com";
     Unicode.WatsonxAI.project_id := None;
     Unicode.WatsonxAI.model_id := Unicode.widen "ibm/granite-3-8b-instruct";
     Unicode.WatsonxAI.model := None;
     Unicode.WatsonxAI.use_stub := true |}.

(** What it is with credentials, connected to the handle [m]. *)
Definition real_client (m : Unicode.WatsonxAI.ModelInference)
  : Unicode.WatsonxAI.t :=
  {| Unicode.WatsonxAI.api_key := Some (Unicode.widen "key");
     Unicode.WatsonxAI.watsonx_url :=
       Unicode.widen "https://us-south.ml.cloud.ibm.com";
     Unicode.WatsonxAI.project_id := Some (Unicode.widen "project");
     Unicode.WatsonxAI.model_id := Unicode.widen "ibm/granite-3-8b-instruct";
     Unicode.WatsonxAI.model := Some m;
     Unicode.WatsonxAI.use_stub := false |}.

(** A hosted model whose every request times out. *)
Definition timing_out : Unicode.WatsonxAI.ModelInference :=
  {| Unicode.WatsonxAI.generate_text :=
       fun _ _ => Raises (ServiceError "timeout") |}.

(** The value under a key, or [default] when the key is absent. *)
Definition value_or (o : option Unicode.value) (default : Unicode.value)
  : Unicode.value :=
  match o with Some v => v | None => default end.

(** The assessment [assess_patentability] reads off a parsed object. *)
Definition fields_of (d : list (Unicode.str * Unicode.value))
  : Unicode.ClaimExtractor.Assessment :=
  {| Unicode.ClaimExtractor.isPatentable :=
       value_or (Unicode.dict_get d (Unicode.widen "isPatentable"))
                (Unicode.VBool true);
     Unicode.ClaimExtractor.confidence :=
       value_or (Unicode.dict_get d (Unicode.widen "confidence"))
                (Unicode.VInt 50);
     Unicode.ClaimExtractor.missingElements :=
       value_or (Unicode.dict_get d (Unicode.widen "missingElements"))
                (Unicode.VList []);
     Unicode.ClaimExtractor.recommendations :=
       value_or (Unicode.dict_get d (Unicode.widen "recommendations"))
                (Unicode.VList []) |}.

(** The three-backtick marker as a [str], and [s.replace(marker, '')]. *)
Definition code_fence : Unicode.str := Unicode.widen "```".

Definition strip_fences (s : Unicode.str) : Unicode.str :=
  Unicode.replace_from code_fence [] s 0.

(** [str.lower] on the code points below U+0100, one character at a
    time; the others are left alone. *)
Definition latin1_lower_code (c : N) : N :=
  if (c <? 256)%N then code (lower_char (ascii_of_N c)) else c.

Definition latin1_lower (s : Unicode.str) : Unicode.str :=
  map latin1_lower_code s.

(** The runtime lowercases a text below U+0100 as the table of [PyStr]
    does. *)
Definition lowers_latin1 (rt : Unicode.Runtime) : Prop :=
  forall s : string,
    Unicode.str_lower rt (Unicode.widen s) = Unicode.widen (lower s).

(** A [str] below U+0100 as a [string]. *)
Fixpoint narrow (s : Unicode.str) : option string :=
  match s with
  | [] => Some EmptyString
  | c :: r =>
      match narrow r with
      | Some r' => if (c <? 256)%N then Some (String (ascii_of_N c) r') else None
      | None => None
      end
  end.

(** A [json] tree as a value over every [str]. *)
Fixpoint value_of (v : json) : Unicode.value :=
  match v with
  | JNull => Unicode.VNone
  | JBool b => Unicode.VBool b
  | JInt z => Unicode.VInt z
  | JFloat q => Unicode.VFloat (Unicode.Finite q)
  | JNonFinite NaN => Unicode.VFloat Unicode.NotANumber
  | JNonFinite PosInf => Unicode.VFloat (Unicode.Infinite false)
  | JNonFinite NegInf => Unicode.VFloat (Unicode.Infinite true)
  | JStr s => Unicode.VStr (Unicode.widen s)
  | JList l => Unicode.VList (map value_of l)
  | JDict d =>
      Unicode.VDict (map (fun kv => (Unicode.widen (fst kv), value_of (snd kv))) d)
  end.

(** One runtime among those the statements range over: the table and the
    scanner of the modules below U+0100, with a decoder that refuses
    every other text. *)
Definition latin1_loads (s : Unicode.str) : outcome Unicode.value :=
  match narrow s with
  | Some t =>
      match loads t with
      | Some v => Returns (value_of v)
      | None => Raises JSONDecodeError
      end
  | None => Raises JSONDecodeError
  end.

Definition latin1_runtime : Unicode.Runtime :=
  {| Unicode.str_lower := latin1_lower;
     Unicode.json_loads := latin1_loads |}.

(** A hosted model that answers every request with [reply]. *)
Definition answering (reply : Unicode.str) : Unicode.WatsonxAI.ModelInference :=
  {| Unicode.WatsonxAI.generate_text := fun _ _ => Returns reply |}.

(** An ASCII reply with an escape for U+2019, and the object
    [json.loads] makes of it. *)
Definition escaped_reply : string :=
  "{" ++ dq ++ "confidence" ++ dq ++ ": 70, "
      ++ dq ++ "reasoning" ++ dq ++ ": " ++ dq ++ "it\u2019s new" ++ dq ++ "}".

Definition escaped_value : Unicode.value :=
  Unicode.VDict
    [(Unicode.widen "confidence", Unicode.VInt 70);
     (Unicode.widen "reasoning",
      Unicode.VStr (Unicode.widen "it" ++ 8217%N :: Unicode.widen "s new")%list)].

(** [latin1_runtime] with a decoder that reads that reply as well. *)
Definition escape_runtime : Unicode.Runtime :=
  {| Unicode.str_lower := latin1_lower;
     Unicode.json_loads :=
       fun s => if Unicode.eqb s (Unicode.widen escaped_reply)
                then Returns escaped_value
                else latin1_loads s |}.

(** Three capital I with dot above (U+0130) before a marker, and what
    [str.lower] makes of that text: each U+0130 becomes an [i] and a
    combining dot (U+0307). *)
Definition dotted_text : Unicode.str :=
  ([304; 304; 304]%N ++ Unicode.widen " Background: a widget")%list.

Definition dotted_text_lower : Unicode.str :=
  ([105; 775; 105; 775; 105; 775]%N
   ++ Unicode.widen " background: a widget")%list.

(** [latin1_runtime] with a table that lowercases U+0130 that way. *)
Definition dotted_runtime : Unicode.Runtime :=
  {| Unicode.str_lower :=
       flat_map (fun c => if (c =? 304)%N then [105; 775]%N
                          else [latin1_lower_code c]);
     Unicode.json_loads := latin1_loads |}.

(** [word in prompt.lower()] *)
Definition mentions (rt : Unicode.Runtime) (prompt : Unicode.str) (word : string)
  : bool :=
  Unicode.contains (Unicode.widen word) (Unicode.str_lower rt prompt).

(** [prompt.lower().count(word)] *)
Definition occurrences (rt : Unicode.Runtime) (prompt : Unicode.str)
    (word : string) : nat :=
  Unicode.count (Unicode.widen word) (Unicode.str_lower rt prompt).

(** The euro sign before a question. *)
Definition euro_prompt : Unicode.str :=
  8364%N :: Unicode.widen " device: is it patentable?".

(** An extractor around the client [a]; its NLU service is down. *)
Definition extractor_around (a : Unicode.WatsonxAI.t) : Unicode.ClaimExtractor.t :=
  {| Unicode.ClaimExtractor.watsonx_nlu :=
       {| Unicode.ClaimExtractor.analyze :=
            fun _ => Raises (ServiceError "NLU unavailable") |};
     Unicode.ClaimExtractor.watsonx_ai := a |}.

End UnicodeVocabulary.

(* ================================================================== *)
(** * Properties *)
(* ================================================================== *)

(** ** The runtime model against known values

    The values on the right are what CPython prints for the same calls. *)

Section RuntimeChecks.
Import Md5.

Example md5_of_empty :
  md5_int (encode EmptyString) = 281949768489412648962353822266799178366%N.
Proof. now vm_compute. Qed.

Example md5_of_abc :
  md5_int (encode "abc") = 191415658344158766168031473277922803570%N.
Proof. now vm_compute. Qed.

Example md5_of_two_blocks :
  md5_int (encode
    "aaaaaaaaaaaaaaaaaaaaaaaaaaaaaaaaaaaaaaaaaaaaaaaaaaaaaaaaaaaaaaaa")
  = 1704428844837149307458867811447698279%N.
Proof. now vm_compute. Qed.

Example md5_of_latin1 :
  md5_int (encode (String "c" (String "a" (String "f" (String "233" EmptyString)))))
  = 9395458997242411472544951782067420578%N.
Proof. now vm_compute. Qed.

Example strip_then_lower :
  lower (strip (String "032" (String "009" (String "028"
           ("Hello " ++ String "201" ("COLE" ++ String "133" (String "160" nl)))))))
  = "hello " ++ String "233" "cole".
Proof. now vm_compute. Qed.

Example count_does_not_overlap : count "aa" "aaaaa" = 2.
Proof. reflexivity. Qed.

Example replace_left_to_right : replace "aba" "x" "ababa" = "xba".
Proof. reflexivity. Qed.

Example dumps_nested :
  dumps (JDict [("k", JList [JInt 1; JInt (-2); JFloat (inject_Z 75); JNull;
                             JBool true; JStr ("a" ++ dq ++ "b\c" ++ nl)])])
  = "{" ++ dq ++ "k" ++ dq ++ ": [1, -2, 75.0, null, true, "
        ++ dq ++ "a\" ++ dq ++ "b\\c\n" ++ dq ++ "]}".
Proof. now vm_compute. Qed.

Example loads_nested :
  loads ("  {" ++ dq ++ "k" ++ dq ++ ": [1, -2, 7.50e1, null, true, "
           ++ dq ++ "a\" ++ dq ++ "b\u00e9" ++ dq ++ "], "
           ++ dq ++ "k2" ++ dq ++ ": {}} ")
  = Some (JDict [("k", JList [JInt 1; JInt (-2); JFloat (inject_Z 75); JNull;
                              JBool true;
                              JStr ("a" ++ dq ++ "b" ++ String "233" EmptyString)]);
                 ("k2", JDict [])]).
Proof. now vm_compute. Qed.

Example loads_refuses :
  map loads ["01"; "-"; "1."; "[1,]"; ".5"; "tru"; "{'a': 1}"; EmptyString]
  = [None; None; None; None; None; None; None; None].
Proof. now vm_compute. Qed.

Example loads_keeps_last_duplicate :
  loads ("{" ++ dq ++ "a" ++ dq ++ ":1," ++ dq ++ "a" ++ dq ++ ":2}")
  = Some (JDict [("a", JInt 2)]).
Proof. now vm_compute. Qed.

(** The background scenario of the specification. *)
Example background_from_marker :
  ClaimExtractor._extract_background
    "Intro text... Background: a widget with three screws..."
  = Returns "Background: a widget with three screws...".
Proof. now vm_compute. Qed.

End RuntimeChecks.

(** ** Strings *)

Section StringFacts.


Lemma prefix_app (p a b : string) :
  prefix p a = true -> prefix p (a ++ b) = true.
Proof.
  revert a; induction p as [|c p IH]; intros a H.
  - destruct (a ++ b); reflexivity.
  - destruct a as [|d a]; simpl in *; [discriminate|].
    destruct (ascii_dec c d); [auto | discriminate].
Qed.

Lemma contains_cons (p : string) (c : ascii) (s : string) :
  contains p (String c s) = prefix p (String c s) || contains p s.
Proof. reflexivity. Qed.

Lemma contains_app_l (p a b : string) :
  contains p a = true -> contains p (a ++ b) = true.
Proof.
  induction a as [|c a IH]; intros H.
  - destruct p; [|discriminate]. destruct b; reflexivity.
  - rewrite contains_cons in H.
    change (String c a ++ b) with (String c (a ++ b)). rewrite contains_cons.
    apply orb_true_iff in H as [H|H].
    + change (String c (a ++ b)) with (String c a ++ b).
      now rewrite (prefix_app _ _ b H).
    + rewrite (IH H). apply orb_true_r.
Qed.

Lemma contains_index_of (p s : string) :
  contains p s = true -> exists n, index_of p s = Some n.
Proof.
  induction s as [|c s IH]; intros H.
  - destruct p; [|discriminate]. now exists 0.
  - rewrite contains_cons in H.
    change (index_of p (String c s))
      with (if prefix p (String c s) then Some 0
            else option_map S (index_of p s)).
    destruct (prefix p (String c s)) eqn:E; [now exists 0|].
    simpl in H. destruct (IH H) as [n Hn]. rewrite Hn. now exists (S n).
Qed.

Lemma contains_lstrip (p s : string) :
  contains p (lstrip s) = true -> contains p s = true.
Proof.
  induction s as [|c s IH]; [auto|].
  cbn [lstrip]. destruct (is_space c); [|auto].
  intros H. rewrite contains_cons, (IH H). apply orb_true_r.
Qed.

Lemma rstrip_prefix (s : string) : exists t, s = rstrip s ++ t.
Proof.
  induction s as [|c s [t IH]]; [now exists EmptyString|].
  cbn [rstrip]. destruct (is_space c && is_empty (rstrip s)).
  - now exists (String c s).
  - exists t. cbn [append]. now rewrite <- IH.
Qed.

Lemma contains_strip (p s : string) :
  contains p (strip s) = true -> contains p s = true.
Proof.
  unfold strip. intros H. apply contains_lstrip.
  destruct (rstrip_prefix (lstrip s)) as [t E]. rewrite E.
  now apply contains_app_l.
Qed.

(** A pattern that occurs brings its own beginning along. *)
Lemma prefix_shorter (p q s : string) :
  prefix (p ++ q) s = true -> prefix p s = true.
Proof.
  revert s. induction p as [|c p IH]; intros s H.
  - destruct s; reflexivity.
  - destruct s as [|d s]; cbn [append] in H; simpl in *; [discriminate|].
    destruct (ascii_dec c d); [auto | discriminate].
Qed.

Lemma contains_shorter (p q s : string) :
  contains (p ++ q) s = true -> contains p s = true.
Proof.
  induction s as [|c s IH]; intros H.
  - destruct p; [reflexivity|]. discriminate.
  - rewrite contains_cons in *. apply orb_true_iff in H as [H|H].
    + now rewrite (prefix_shorter _ _ _ H).
    + rewrite (IH H). apply orb_true_r.
Qed.

(** *** Removing the code fence *)

Lemma prefix_elim (p s : string) :
  prefix p s = true -> exists t, s = p ++ t.
Proof.
  revert s. induction p as [|c p IH]; intros s H; [now exists s|].
  destruct s as [|d s]; simpl in H; [discriminate|].
  destruct (ascii_dec c d) as [->|]; [|discriminate].
  destruct (IH s H) as [t ->]. now exists t.
Qed.

Lemma replace_from_skip (old new : string) (c : ascii) (r : string) (k : nat) :
  replace_from old new (String c r) (S k) = replace_from old new r k.
Proof. reflexivity. Qed.

Lemma replace_from_here (old new : string) (c : ascii) (r : string) :
  replace_from old new (String c r) 0 =
  if prefix old (String c r)
  then new ++ replace_from old new r (length old - 1)
  else String c (replace_from old new r 0).
Proof. reflexivity. Qed.

Lemma unfence_fence (r : string) : unfence (fence ++ r) = unfence r.
Proof.
  unfold unfence. change (fence ++ r) with (String "`" (String "`" (String "`" r))).
  rewrite replace_from_here.
  change (String "`" (String "`" (String "`" r))) with (fence ++ r).
  rewrite (prefix_app fence fence r) by now vm_compute.
  change (length fence - 1) with 2.
  now rewrite !replace_from_skip.
Qed.

Lemma unfence_match (s : string) :
  prefix fence s = true ->
  exists r, s = fence ++ r /\ length r < length s /\ unfence s = unfence r.
Proof.
  intros H. destruct (prefix_elim _ _ H) as [r ->]. exists r.
  split; [reflexivity|]. split; [|apply unfence_fence].
  change (fence ++ r) with (String "`" (String "`" (String "`" r))).
  cbn [length]. lia.
Qed.

Lemma unfence_step (c : ascii) (r : string) :
  prefix fence (String c r) = false ->
  unfence (String c r) = String c (unfence r).
Proof.
  intros H. unfold unfence. rewrite replace_from_here. now rewrite H.
Qed.

Lemma unfence_head (s t : string) :
  unfence s = String "`" t -> exists r, s = String "`" r.
Proof.
  destruct (prefix fence s) eqn:E.
  - destruct (unfence_match s E) as (r & -> & _). intros _. now eexists.
  - destruct s as [|c r]; [discriminate|].
    rewrite (unfence_step _ _ E). intros H. inversion H. now eexists.
Qed.

Lemma unfence_head2 (s t : string) :
  unfence s = String "`" (String "`" t) ->
  exists r, s = String "`" (String "`" r).
Proof.
  destruct (prefix fence s) eqn:E.
  - destruct (unfence_match s E) as (r & -> & _). intros _. now eexists.
  - destruct s as [|c r]; [discriminate|].
    rewrite (unfence_step _ _ E). intros H. inversion H as [[Hc Hr]].
    destruct (unfence_head _ _ Hr) as [r' ->]. now eexists.
Qed.

Lemma unfence_no_fence (s : string) : contains fence (unfence s) = false.
Proof.
  remember (length s) as n eqn:Hn.
  assert (Hle : length s <= n) by lia. clear Hn. revert s Hle.
  induction n as [|n IH]; intros s Hle.
  - destruct s; [reflexivity | simpl in Hle; lia].
  - destruct (prefix fence s) eqn:E.
    + destruct (unfence_match s E) as (r & _ & Hr & ->). apply IH. lia.
    + destruct s as [|c r]; [reflexivity|].
      rewrite (unfence_step _ _ E), contains_cons.
      rewrite (IH r) by (simpl in Hle; lia). rewrite orb_false_r.
      destruct (prefix fence (String c (unfence r))) eqn:P; [|reflexivity].
      exfalso.
      destruct (prefix_elim _ _ P) as [t Ht].
      change (fence ++ t) with (String "`" (String "`" (String "`" t))) in Ht.
      inversion Ht as [[Hc U]]. subst c.
      destruct (unfence_head2 _ _ U) as [r' ->].
      change (String "`" (String "`" (String "`" r'))) with (fence ++ r') in E.
      rewrite (prefix_app fence fence r') in E by now vm_compute.
      discriminate.
Qed.

End StringFacts.

(** ** The classification table *)

Section Classification.
Import ClaimExtractor.

Lemma set_add_in (x c : string) (s : list string) :
  In c (set_add x s) <-> c = x \/ In c s.
Proof.
  unfold set_add. destruct (existsb (String.eqb x) s) eqn:E.
  - split; [auto|]. intros [->|H]; [|exact H].
    apply existsb_exists in E as (y & Hy & Hxy).
    apply String.eqb_eq in Hxy. now subst.
  - rewrite in_app_iff. simpl. intuition.
Qed.

Lemma set_add_nodup (x : string) (s : list string) :
  NoDup s -> NoDup (set_add x s).
Proof.
  intros H. unfold set_add. destruct (existsb (String.eqb x) s) eqn:E; [exact H|].
  assert (Hx : ~ In x s).
  { intros Hin. assert (existsb (String.eqb x) s = true); [|congruence].
    apply existsb_exists. exists x. split; [exact Hin | apply String.eqb_refl]. }
  clear E. induction H as [|y s Hy Hs IH]; simpl.
  - constructor; [intros [] | constructor].
  - constructor.
    + rewrite in_app_iff. simpl. intros [H'|[H'|[]]]; [tauto|].
      subst. apply Hx. now left.
    + apply IH. intros H'. apply Hx. now right.
Qed.

Lemma update_in (cs codes : list string) (c : string) :
  In c (update codes cs) <-> In c codes \/ In c cs.
Proof.
  unfold update. revert codes.
  induction cs as [|x cs IH]; intros codes; simpl; [tauto|].
  rewrite IH, set_add_in. intuition.
Qed.

Lemma update_nodup (cs codes : list string) :
  NoDup codes -> NoDup (update codes cs).
Proof.
  unfold update. revert codes.
  induction cs as [|x cs IH]; intros codes H; simpl; [exact H|].
  apply IH, set_add_nodup, H.
Qed.

Lemma pass_in (kl : string) (m : list (string * list string))
      (codes : list string) (c : string) :
  In c (fold_left (pass kl) m codes) <->
  In c codes \/
  exists term cs, In (term, cs) m /\ contains term kl = true /\ In c cs.
Proof.
  revert codes. induction m as [|[term cs] m IH]; intros codes; simpl.
  - split; [auto|]. intros [H|(t & k & [] & _)]. exact H.
  - rewrite IH. destruct (contains term kl) eqn:E.
    + rewrite update_in. split.
      * intros [[H|H]|(t & k & H1 & H2)]; [now left | | ].
        -- right. exists term, cs. auto.
        -- right. exists t, k. tauto.
      * intros [H|(t & k & [H1|H1] & H2 & H3)]; [tauto | | ].
        -- inversion H1; subst. tauto.
        -- right. exists t, k. tauto.
    + split.
      * intros [H|(t & k & H1 & H2)]; [now left|].
        right. exists t, k. tauto.
      * intros [H|(t & k & [H1|H1] & H2 & H3)]; [tauto | | ].
        -- inversion H1; subst. congruence.
        -- right. exists t, k. tauto.
Qed.

Lemma pass_nodup (kl : string) (m : list (string * list string))
      (codes : list string) :
  NoDup codes -> NoDup (fold_left (pass kl) m codes).
Proof.
  revert codes. induction m as [|[term cs] m IH]; intros codes H; simpl.
  - exact H.
  - apply IH. destruct (contains term kl); [apply update_nodup|]; exact H.
Qed.

Lemma scan_terms_fold (kl : string) (codes : list string) :
  scan_terms kl codes = fold_left (pass kl) ipc_mapping codes.
Proof. reflexivity. Qed.

Lemma scan_keywords_cons (kw : string) (rest : list json) (codes : list string) :
  scan_keywords (JStr kw :: rest) codes =
  scan_keywords rest (scan_terms (lower kw) codes).
Proof.
  cbv beta iota zeta delta [scan_keywords]. fold scan_keywords.
  exact eq_refl.
Qed.

Lemma hit_cons (kw : string) (kws : list string) (c : string) :
  hit (kw :: kws) c <->
  (exists term cs, In (term, cs) ipc_mapping /\
                   contains term (lower kw) = true /\ In c cs)
  \/ hit kws c.
Proof.
  unfold hit. split.
  - intros (k & t & cs & Hk & H). apply in_inv in Hk as [->|Hk].
    + left. now exists t, cs.
    + right. now exists k, t, cs.
  - intros [(t & cs & H)|(k & t & cs & Hk & H)].
    + exists kw, t, cs. split; [apply in_eq | exact H].
    + exists k, t, cs. split; [now apply in_cons | exact H].
Qed.

Lemma scan_keywords_spec (kws : list string) (codes : list string) :
  NoDup codes ->
  exists out,
    scan_keywords (map JStr kws) codes = Returns out /\ NoDup out /\
    forall c, In c out <-> In c codes \/ hit kws c.
Proof.
  revert codes. induction kws as [|kw kws IH]; intros codes Hnd.
  - exists codes. split; [reflexivity|]. split; [exact Hnd|].
    intros c. split; [now left|].
    intros [H|(k & _ & _ & [] & _)]. exact H.
  - destruct (IH (scan_terms (lower kw) codes)) as (out & E & Hout & Hin).
    { rewrite scan_terms_fold. apply pass_nodup, Hnd. }
    exists out. change (map JStr (kw :: kws)) with (JStr kw :: map JStr kws).
    rewrite scan_keywords_cons. split; [exact E|]. split; [exact Hout|].
    intros c. rewrite Hin, hit_cons, scan_terms_fold, pass_in. tauto.
Qed.

(** Insertion keeps the elements and the order. *)
Lemma insert_in (x c : string) (l : list string) :
  In c (insert x l) <-> c = x \/ In c l.
Proof.
  induction l as [|y l IH]; simpl; [intuition|].
  destruct (String.leb x y); simpl; [intuition|]. rewrite IH. intuition.
Qed.

Lemma sorted_in (c : string) (l : list string) : In c (sorted l) <-> In c l.
Proof.
  induction l as [|y l IH]; simpl; [tauto|]. rewrite insert_in, IH. intuition.
Qed.

Lemma ltb_of_leb (x y : string) :
  String.leb x y = true -> x <> y -> str_lt x y.
Proof.
  unfold str_lt, String.leb, String.ltb. intros H Hne.
  destruct (String.compare x y) eqn:E; try reflexivity; try discriminate.
  apply String.compare_eq_iff in E. contradiction.
Qed.

Lemma leb_flip (x y : string) :
  String.leb x y = false -> String.leb y x = true.
Proof.
  intros H. destruct (String.leb_total x y); congruence.
Qed.

Lemma ascii_compare_trans (a b c : ascii) :
  Ascii.compare a b = Lt -> Ascii.compare b c = Lt -> Ascii.compare a c = Lt.
Proof.
  unfold Ascii.compare. rewrite !N.compare_lt_iff. apply N.lt_trans.
Qed.

Lemma str_lt_trans (x y z : string) : str_lt x y -> str_lt y z -> str_lt x z.
Proof.
  unfold str_lt, String.ltb. revert y z.
  induction x as [|a x IH]; intros [|b y] [|c z]; simpl; try discriminate; auto.
  destruct (Ascii.compare a b) eqn:Eab; try discriminate;
    destruct (Ascii.compare b c) eqn:Ebc; try discriminate; intros Hxy Hyz.
  - apply Ascii.compare_eq_iff in Eab, Ebc. subst.
    assert (E : Ascii.compare c c = Eq) by apply N.compare_refl.
    rewrite E. eapply IH; eassumption.
  - apply Ascii.compare_eq_iff in Eab. subst. now rewrite Ebc.
  - apply Ascii.compare_eq_iff in Ebc. subst. now rewrite Eab.
  - now rewrite (ascii_compare_trans _ _ _ Eab Ebc).
Qed.

Lemma insert_sorted (x : string) (l : list string) :
  ~ In x l -> StronglySorted str_lt l -> StronglySorted str_lt (insert x l).
Proof.
  intros Hx H. induction H as [|y l Hl IH Hy]; simpl.
  - constructor; constructor.
  - assert (Hne : x <> y) by (intros ->; apply Hx; now left).
    destruct (String.leb x y) eqn:E.
    + pose proof (ltb_of_leb _ _ E Hne) as Hxy.
      constructor; [now constructor|]. constructor; [exact Hxy|].
      eapply Forall_impl; [|exact Hy]. intros z. apply str_lt_trans, Hxy.
    + constructor.
      * apply IH. intros H'. apply Hx. now right.
      * apply Forall_forall. intros z Hz. apply insert_in in Hz as [->|Hz].
        -- apply ltb_of_leb; [now apply leb_flip | congruence].
        -- rewrite Forall_forall in Hy. now apply Hy.
Qed.

Lemma sorted_sorted (l : list string) :
  NoDup l -> StronglySorted str_lt (sorted l).
Proof.
  induction 1 as [|x l Hx Hl IH]; simpl; [constructor|].
  apply insert_sorted; [|exact IH]. now rewrite sorted_in.
Qed.

Lemma classify_ipc_spec (kws : list string) :
  exists codes,
    _classify_ipc (map JStr kws) = Returns codes /\
    StronglySorted str_lt codes /\
    forall c, In c codes <->
              hit kws c \/ ((forall c', ~ hit kws c') /\ c = "G06F").
Proof.
  destruct (scan_keywords_spec kws [] (NoDup_nil _)) as (out & E & Hnd & Hin).
  unfold _classify_ipc. rewrite E. destruct out as [|o out].
  - exists ["G06F"]. split; [reflexivity|]. split.
    + repeat constructor.
    + intros c. split.
      * intros [<-|[]]. right. split; [|reflexivity].
        intros c' Hc'. apply (proj2 (Hin c')). now right.
      * intros [H|[_ ->]]; [|now left].
        exfalso. apply (proj2 (Hin c)). now right.
  - exists (sorted (o :: out)). split; [reflexivity|]. split.
    + apply sorted_sorted, Hnd.
    + intros c. rewrite sorted_in, Hin. split.
      * intros [[]|H]. now left.
      * intros [H|[H _]]; [now right|].
        exfalso. apply (H o). destruct (proj1 (Hin o)) as [[]|Ho];
          [now left | exact Ho].
Qed.

Lemma classify_ipc_nonempty (kws : list string) :
  exists codes, _classify_ipc (map JStr kws) = Returns codes /\ codes <> [].
Proof.
  destruct (scan_keywords_spec kws [] (NoDup_nil _)) as (out & E & _).
  unfold _classify_ipc. rewrite E. destruct out as [|o out].
  - exists ["G06F"]. split; [reflexivity | discriminate].
  - exists (sorted (o :: out)). split; [reflexivity|].
    change (sorted (o :: out)) with (insert o (sorted out)).
    destruct (sorted out) as [|y l]; [discriminate|].
    cbn [insert]. destruct (String.leb o y); discriminate.
Qed.

(** C6.  [_classify_ipc] on any list of keywords returns a list that is
    strictly increasing in code-point order (sorted, no repetition) and
    holds exactly the codes of the table entries whose term is a substring
    of a lowercased keyword, or the default code alone when no entry
    matches; no keyword gives [G06F], [battery] gives the battery code
    only, and [Lithium Battery] gives the codes of the entries [battery]
    and [lithium] together. *)
Theorem classify_ipc_contract :
  (forall kws : list string,
     exists codes,
       _classify_ipc (map JStr kws) = Returns codes /\
       StronglySorted str_lt codes /\
       forall c, In c codes <->
                 hit kws c \/ ((forall c', ~ hit kws c') /\ c = "G06F")) /\
  _classify_ipc [] = Returns ["G06F"] /\
  _classify_ipc [JStr "battery"] = Returns (entry_codes "battery") /\
  entry_codes "battery" = ["H01M10/05"] /\
  exists both,
    _classify_ipc [JStr "Lithium Battery"] = Returns both /\
    forall c, In c both <->
              In c (entry_codes "battery") \/ In c (entry_codes "lithium").
Proof.
  split; [exact classify_ipc_spec|].
  split; [now vm_compute|split; [now vm_compute|split; [now vm_compute|]]].
  exists ["H01M10/05"; "H01M10/0525"]. split; [now vm_compute|].
  intros c.
  replace (entry_codes "battery") with ["H01M10/05"] by now vm_compute.
  replace (entry_codes "lithium") with ["H01M10/0525"] by now vm_compute.
  simpl. tauto.
Qed.

End Classification.

(** ** The stub responder *)

Section StubResponder.
Import WatsonxAI Md5.



(** A property of every integer of a range, from its instances. *)
Lemma Z_range_cases (P : Z -> Prop) (lo : Z) (n : nat) :
  (forall k, (k < n)%nat -> P (lo + Z.of_nat k)%Z) ->
  forall z, (lo <= z < lo + Z.of_nat n)%Z -> P z.
Proof.
  intros H z Hz. replace z with (lo + Z.of_nat (Z.to_nat (z - lo)))%Z by lia.
  apply H. lia.
Qed.

Ltac next_case k :=
  destruct k as [|k]; [vm_compute; repeat split; reflexivity|].

(** What the stub prints for a patentability prompt contains no code
    fence and reads back as the dict it was printed from. *)
Lemma patentability_reply_parses (b : bool) (conf : Z) :
  (60 <= conf < 95)%Z ->
  clean (dumps (patentability_reply b conf)) = dumps (patentability_reply b conf)
  /\ loads (dumps (patentability_reply b conf)) = Some (patentability_reply b conf).
Proof.
  intros H. revert conf H. apply (Z_range_cases _ 60 35).
  intros k Hk. destruct b; do 35 (next_case k); lia.
Qed.

Lemma similarity_reply_parses (score : Z) :
  (40 <= score < 96)%Z ->
  clean (dumps (similarity_reply score)) = dumps (similarity_reply score)
  /\ loads (dumps (similarity_reply score)) = Some (similarity_reply score).
Proof.
  intros H. revert score H. apply (Z_range_cases _ 40 56).
  intros k Hk. do 56 (next_case k); lia.
Qed.





End StubResponder.

(** ** The generation client *)

Section GenerationClient.
Import WatsonxAI.

Ltac run_generate :=
  cbv beta iota zeta
      delta [generate generate_json json_loads bind get_self try_except
             call_model ret raise has_model result final world fst snd].

Lemma generate_stub (self : t) (w : World) (prompt : string) (mt : Z) (temp : Q) :
  use_stub self = true \/ model self = None ->
  generate prompt mt temp self w = (Returns (_stub_generate prompt), self, w).
Proof.
  intros [H|H]; run_generate; rewrite H; [reflexivity|].
  rewrite orb_true_r. reflexivity.
Qed.

Lemma generate_answer (self : t) (m : ModelInference) (w : World)
      (prompt : string) (mt : Z) (temp : Q) (r : string) :
  use_stub self = false -> model self = Some m ->
  generate_text m w prompt = Returns r ->
  generate prompt mt temp self w = (Returns (strip r), self, S w).
Proof.
  intros H1 H2 H3. run_generate. rewrite H1, H2.
  cbv beta iota delta [orb negb]. rewrite H2, H3. reflexivity.
Qed.

Lemma generate_fallback (self : t) (m : ModelInference) (w : World)
      (prompt : string) (mt : Z) (temp : Q) (e : exn) :
  use_stub self = false -> model self = Some m ->
  generate_text m w prompt = Raises e ->
  generate prompt mt temp self w = (Returns (_stub_generate prompt), self, S w).
Proof.
  intros H1 H2 H3. run_generate. rewrite H1, H2.
  cbv beta iota delta [orb negb]. rewrite H2, H3. reflexivity.
Qed.

(** On a prompt below U+0100 every run of [generate] returns a text
    and leaves the object as it was. *)
Lemma generate_returns (self : t) (w : World) (prompt : string) (mt : Z) (temp : Q) :
  exists text w',
    generate prompt mt temp self w = (Returns text, self, w').
Proof.
  destruct (use_stub self) eqn:H1.
  - eexists _, _. apply generate_stub. now left.
  - destruct (model self) as [m|] eqn:H2.
    + destruct (generate_text m w prompt) as [r|e] eqn:H3.
      * eexists _, _. eapply generate_answer; eassumption.
      * eexists _, _. eapply generate_fallback; eassumption.
    + eexists _, _. apply generate_stub. now right.
Qed.

(** [generate_json] in terms of the text [generate] returned. *)
Lemma generate_json_run (self : t) (w w' : World) (prompt : string) (mt : Z)
      (response : string) :
  generate prompt mt (1 # 10) self w = (Returns response, self, w') ->
  generate_json prompt mt self w =
  (match loads (clean response) with
   | Some v => Returns v
   | None => Raises JSONDecodeError
   end, self, w').
Proof.
  intros H.
  cbv beta iota zeta delta [generate_json bind]. rewrite H.
  cbv beta iota zeta delta [try_except json_loads].
  destruct (loads (clean response)); reflexivity.
Qed.


(** C10.  Neither [generate] nor [generate_json] changes the object:
    [use_stub], [model], [api_key], [watsonx_url], [project_id] and
    [model_id] are after the call what they were before it.  So when one
    request to the hosted model raises and the next one answers, the
    first call returns the stub's output and the second the model's
    answer. *)
Theorem generate_keeps_configuration :
  (forall (self : t) (w : World) (prompt : string) (mt : Z) (temp : Q),
     final (generate prompt mt temp self w) = self) /\
  (forall (self : t) (w : World) (prompt : string) (mt : Z),
     final (generate_json prompt mt self w) = self) /\
  (forall (self : t) (m : ModelInference) (w : World) (p1 p2 : string)
          (mt : Z) (temp : Q) (e : exn) (r : string),
     use_stub self = false -> model self = Some m ->
     generate_text m w p1 = Raises e ->
     generate_text m (S w) p2 = Returns r ->
     let first := generate p1 mt temp self w in
     result first = Returns (_stub_generate p1) /\
     use_stub (final first) = false /\
     result (generate p2 mt temp (final first) (world first))
       = Returns (strip r)).
Proof.
  split; [|split].
  - intros self w prompt mt temp.
    destruct (generate_returns self w prompt mt temp) as (text & w' & E).
    now rewrite E.
  - intros self w prompt mt.
    destruct (generate_returns self w prompt mt (1 # 10)) as (text & w' & E).
    now rewrite (generate_json_run _ _ _ _ _ _ E).
  - intros self m w p1 p2 mt temp e r H1 H2 H3 H4 first. subst first.
    rewrite (generate_fallback _ _ _ _ mt temp _ H1 H2 H3).
    cbv beta iota delta [result final world fst snd].
    rewrite (generate_answer _ _ _ _ mt temp _ H1 H2 H4).
    repeat split; auto.
Qed.

(** No code fence is left in the cleaned text. *)
Lemma clean_no_fence (response : string) :
  contains "```" (clean response) = false
  /\ contains "```json" (clean response) = false.
Proof.
  assert (H : contains "```" (clean response) = false).
  { destruct (contains "```" (clean response)) eqn:E; [|reflexivity].
    unfold clean in E. apply contains_strip in E.
    change (replace "```" EmptyString
                    (replace "```json" EmptyString response))
      with (unfence (replace "```json" EmptyString response)) in E.
    change "```" with fence in E. now rewrite unfence_no_fence in E. }
  split; [exact H|].
  destruct (contains "```json" (clean response)) eqn:E; [|reflexivity].
  change "```json" with ("```" ++ "json") in E.
  apply contains_shorter in E. congruence.
Qed.

End GenerationClient.

(** ** The claim extractor *)

Section Extractor.
Import ClaimExtractor.

Lemma bind_returns {S A B} (c : M S A) (k : A -> M S B)
      (s s' : S) (w w' : World) (a : A) :
  c s w = (Returns a, s', w') -> bind c k s w = k a s' w'.
Proof. intros H. unfold bind. now rewrite H. Qed.

Lemma bind_raises {S A B} (c : M S A) (k : A -> M S B)
      (s s' : S) (w w' : World) (e : exn) :
  c s w = (Raises e, s', w') -> bind c k s w = (Raises e, s', w').
Proof. intros H. unfold bind. now rewrite H. Qed.

(** A method of the member [watsonx_ai] that leaves it unchanged leaves
    the extractor unchanged. *)
Lemma ai_run {A} (c : M WatsonxAI.t A) (ce : t) (w w' : World) (o : outcome A) :
  c (watsonx_ai ce) w = (o, watsonx_ai ce, w') -> ai c ce w = (o, ce, w').
Proof.
  intros H. unfold ai, within. rewrite H. now destruct ce.
Qed.






End Extractor.

(** ** The extraction stage *)

Section ExtractionStage.
Import ClaimExtractor.

Lemma scan_patterns_returns (text text_lower : string) (ps : list string) :
  scan_patterns text text_lower ps = Returns None \/
  exists bg, scan_patterns text text_lower ps = Returns (Some bg)
             /\ bg <> EmptyString.
Proof.
  induction ps as [|p ps IH]; [now left|].
  cbn [scan_patterns].
  destruct (contains p text_lower) eqn:Hc; [|exact IH].
  destruct (contains_index_of _ _ Hc) as [n Hn]. rewrite Hn.
  destruct (strip (slice n (n + 500) text)) as [|c bg] eqn:Hb; [exact IH|].
  right. eexists. split; [reflexivity | discriminate].
Qed.

Lemma extract_background_returns (text : string) :
  exists bg, _extract_background text = Returns bg /\ bg <> EmptyString.
Proof.
  unfold _extract_background. destruct text as [|c text].
  - eexists. split; [reflexivity | discriminate].
  - cbn [is_empty].
    destruct (scan_patterns_returns (String c text) (lower (String c text))
                                    patterns) as [E|(bg & E & Hbg)];
      rewrite E.
    + destruct (strip (take 300 (String c text))) eqn:Hs;
        eexists; (split; [reflexivity | discriminate]).
    + exists bg. split; [reflexivity | exact Hbg].
Qed.

Lemma innovations_of_nonempty (response : string) : innovations_of response <> [].
Proof.
  unfold innovations_of.
  destruct (loads (WatsonxAI.clean response)) as [[| | | | | |[|x l]|]|];
    discriminate.
Qed.

Lemma extract_innovations_run (ce : t) (w w' : World) (text response : string)
      (nlu_result : json) :
  WatsonxAI.generate (innovations_prompt text) 500 (3 # 10) (watsonx_ai ce) w
    = (Returns response, watsonx_ai ce, w') ->
  _extract_innovations text nlu_result ce w
    = (Returns (innovations_of response), ce, w').
Proof.
  intros H. apply ai_run in H.
  unfold _extract_innovations, try_except.
  rewrite (bind_returns _ _ _ _ _ _ _ H).
  unfold innovations_of, WatsonxAI.json_loads.
  destruct (loads (WatsonxAI.clean response)) as [v|].
  - rewrite (bind_returns _ _ ce ce w' w' v) by reflexivity.
    destruct v as [| | | | | |[|x l]|]; reflexivity.
  - rewrite (bind_raises _ _ ce ce w' w' JSONDecodeError) by reflexivity.
    reflexivity.
Qed.

Lemma comprehension_texts (items : list json) (kws : list string) :
  item_texts items = Some kws ->
  comprehension (fun kw => subscript kw "text") items = Returns (map JStr kws).
Proof.
  revert kws. induction items as [|item rest IH]; intros kws H.
  - inversion H. reflexivity.
  - cbn [item_texts] in H. cbn [comprehension].
    destruct (item_text item) as [s|] eqn:Hi; [|discriminate].
    destruct (item_texts rest) as [ss|]; [|discriminate].
    inversion H; subst. rewrite (IH ss eq_refl).
    unfold item_text in Hi. destruct item; try discriminate.
    cbn [subscript]. destruct (dict_get d "text") as [[]|]; try discriminate.
    now inversion Hi.
Qed.

Lemma nlu_keywords_items (o : outcome json) (kws : list string) :
  nlu_keywords o = Some kws ->
  exists d items,
    o = Returns (JDict d) /\
    iterate (or_default (dict_get d "keywords") (JList [])) = Returns items /\
    item_texts items = Some kws.
Proof.
  unfold nlu_keywords. destruct o as [[| | | | | | |d]|]; try discriminate.
  intros H. exists d.
  destruct (dict_get d "keywords") as [[| | | | | |items|]|]; try discriminate.
  - now exists items.
  - exists []. now split.
Qed.

Lemma extract_run (ce : t) (w w' : World) (text response : string)
      (kws : list string) :
  nlu_keywords (analyze (watsonx_nlu ce) text) = Some kws ->
  WatsonxAI.generate (innovations_prompt text) 500 (3 # 10) (watsonx_ai ce) w
    = (Returns response, watsonx_ai ce, w') ->
  exists bg codes,
    _extract_background text = Returns bg /\ bg <> EmptyString /\
    _classify_ipc (map JStr (firstn 20 kws)) = Returns codes /\ codes <> [] /\
    extract text ce w = (Returns (claims_of bg response kws codes), ce, w').
Proof.
  intros Hn Hg.
  destruct (extract_background_returns text) as (bg & Hbg & Hbg').
  destruct (classify_ipc_nonempty (firstn 20 kws)) as (codes & Hc & Hc').
  destruct (nlu_keywords_items _ _ Hn) as (d & items & Ho & Hit & Htx).
  exists bg, codes. repeat (split; [assumption|]).
  unfold extract.
  rewrite (bind_returns _ _ ce ce w w bg) by (unfold lift; now rewrite Hbg).
  rewrite (bind_returns _ _ ce ce w w (JDict d))
    by (unfold nlu_analyze; now rewrite Ho).
  rewrite (bind_returns _ _ _ _ _ _ _ (extract_innovations_run _ _ _ _ _ _ Hg)).
  rewrite (bind_returns _ _ ce ce w' w' items)
    by (unfold lift, get; fold (or_default (dict_get d "keywords") (JList []));
        now rewrite Hit).
  rewrite (bind_returns _ _ ce ce w' w' (map JStr kws))
    by (unfold lift; now rewrite (comprehension_texts _ _ Htx)).
  rewrite firstn_map.
  rewrite (bind_returns _ _ ce ce w' w' codes)
    by (unfold lift; now rewrite Hc).
  unfold ret, claims_of.
  pose proof (innovations_of_nonempty response) as Hi.
  destruct (innovations_of response); [contradiction|].
  destruct codes; [contradiction|].
  destruct (firstn 20 kws); reflexivity.
Qed.

End ExtractionStage.

(** ** Concrete clients and end-to-end runs *)

Section Scenarios.
Import ClaimExtractor.

(** C2, at the failing input.  With a hosted model that answers the
    patentability prompt with an object whose [confidence] is 150,
    [assess_patentability] returns confidence 150: the value is passed on
    as parsed, outside the documented range 0 to 100. *)
Theorem assess_patentability_confidence_150 :
  result (assess_patentability "A device."
            (__init__ (nlu_returning (JDict []))
                      (environ_with (always overconfident_reply))) 0)
  = Returns {| isPatentable := JBool true;
               confidence := JInt 150;
               missingElements := JList [];
               recommendations := JList [] |}.
Proof. now vm_compute. Qed.

(** C3, as amended.  Whatever the text and whatever the generation
    backend does, when the NLU call returns a mapping whose [keywords]
    entry (if any) is a list of mappings with a string [text] each,
    [extract] returns, and [background], [innovations], [keywords] and
    [ipcClassifications] are all non-empty. *)
Theorem extract_fields_nonempty (ce : t) (w : World) (text : string)
        (kws : list string) :
  nlu_keywords (analyze (watsonx_nlu ce) text) = Some kws ->
  exists r,
    result (extract text ce w) = Returns r /\ nonempty_claims r.
Proof.
  intros Hn.
  destruct (generate_returns (watsonx_ai ce) w (innovations_prompt text)
                             500 (3 # 10)) as (response & w' & Hg).
  destruct (extract_run _ _ _ _ _ _ Hn Hg)
    as (bg & codes & _ & Hbg & _ & Hc & E).
  exists (claims_of bg response kws codes). rewrite E.
  split; [reflexivity|]. unfold nonempty_claims, claims_of.
  cbn [background innovations keywords ipcClassifications].
  repeat split; auto.
  - apply innovations_of_nonempty.
  - destruct (firstn 20 kws); discriminate.
Qed.

Lemma extract_fields_nonempty_witness :
  exists r,
    result (extract "Background: a lithium battery with a polymer separator."
              (stub_extractor
                 (nlu_returning
                    (JDict [("keywords",
                             JList [JDict [("text", JStr "Lithium Battery")]])])))
              0) = Returns r
    /\ nonempty_claims r.
Proof.
  apply (extract_fields_nonempty _ 0 _ ["Lithium Battery"]). reflexivity.
Defined.

(** C3 as stated fails: an exception of the NLU call leaves [extract],
    and so does the [KeyError] of a keyword item without [text]. *)
Lemma extract_propagates_nlu_failure :
  result (extract "A battery." (stub_extractor nlu_down) 0)
    = Raises (ServiceError "NLU unavailable")
  /\ result (extract "A battery."
               (stub_extractor
                  (nlu_returning (JDict [("keywords", JList [JDict []])]))) 0)
     = Raises KeyError
  /\ ~ (forall (ce : t) (w : World) (text : string),
          exists r, result (extract text ce w) = Returns r /\ nonempty_claims r).
Proof.
  assert (H : result (extract "A battery." (stub_extractor nlu_down) 0)
              = Raises (ServiceError "NLU unavailable")) by now vm_compute.
  split; [exact H|]. split; [now vm_compute|].
  intros Hall.
  destruct (Hall (stub_extractor nlu_down) 0 "A battery.") as (r & Hr & _).
  rewrite H in Hr. discriminate.
Qed.

(** C1, as amended.  In stub mode, when the NLU call returns no keywords,
    [extract] on the empty disclosure returns the "no text provided"
    background, the stub's three numbered innovations, the two default
    keywords and the single code [G06F]. *)
Theorem extract_empty_disclosure (ce : t) (w : World) :
  WatsonxAI.use_stub (watsonx_ai ce) = true
    \/ WatsonxAI.model (watsonx_ai ce) = None ->
  nlu_keywords (analyze (watsonx_nlu ce) EmptyString) = Some [] ->
  result (extract EmptyString ce w)
  = Returns {| background := "No disclosure text provided";
               innovations := [JStr "Technical innovation 1";
                               JStr "Technical innovation 2";
                               JStr "Technical innovation 3"];
               keywords := [JStr "disclosure"; JStr "analysis"];
               ipcClassifications := ["G06F"] |}.
Proof.
  intros Hs Hn.
  pose proof (generate_stub _ w (innovations_prompt EmptyString) 500 (3 # 10) Hs)
    as Hg.
  destruct (extract_run _ _ _ _ _ _ Hn Hg) as (bg & codes & Hbg & _ & Hc & _ & E).
  rewrite E.
  replace bg with "No disclosure text provided"
    by (assert (Returns bg = Returns "No disclosure text provided")
          by (rewrite <- Hbg; now vm_compute); congruence).
  replace codes with ["G06F"]
    by (assert (Returns codes = Returns ["G06F"])
          by (rewrite <- Hc; now vm_compute); congruence).
  unfold claims_of, result. cbn [fst firstn].
  replace (innovations_of
             (WatsonxAI._stub_generate (innovations_prompt EmptyString)))
    with [JStr "Technical innovation 1"; JStr "Technical innovation 2";
          JStr "Technical innovation 3"] by now vm_compute.
  reflexivity.
Qed.

Lemma extract_empty_disclosure_witness :
  result (extract EmptyString (stub_extractor (nlu_returning (JDict []))) 0)
  = Returns {| background := "No disclosure text provided";
               innovations := [JStr "Technical innovation 1";
                               JStr "Technical innovation 2";
                               JStr "Technical innovation 3"];
               keywords := [JStr "disclosure"; JStr "analysis"];
               ipcClassifications := ["G06F"] |}.
Proof.
  apply extract_empty_disclosure; [left|]; reflexivity.
Defined.

(** C1 as stated fails: on the empty disclosure, in stub mode and with no
    keywords from NLU, [innovations] is not the failure placeholder. *)
Lemma extract_empty_disclosure_innovations :
  exists r,
    result (extract EmptyString (stub_extractor (nlu_returning (JDict []))) 0)
      = Returns r /\
    background r = "No disclosure text provided" /\
    keywords r = [JStr "disclosure"; JStr "analysis"] /\
    ipcClassifications r = ["G06F"] /\
    innovations r = [JStr "Technical innovation 1";
                     JStr "Technical innovation 2";
                     JStr "Technical innovation 3"] /\
    innovations r
      <> [JStr "Innovation extraction failed - manual review needed"].
Proof.
  eexists. split; [now vm_compute|].
  repeat split. discriminate.
Qed.


Lemma generate_keeps_configuration_witness :
  result (WatsonxAI.generate "first" 500 (3 # 10) (client_of (flaky " late ")) 0)
    = Returns (WatsonxAI._stub_generate "first")
  /\ WatsonxAI.use_stub
       (final (WatsonxAI.generate "first" 500 (3 # 10)
                                  (client_of (flaky " late ")) 0)) = false
  /\ result (WatsonxAI.generate "second" 500 (3 # 10)
               (final (WatsonxAI.generate "first" 500 (3 # 10)
                                          (client_of (flaky " late ")) 0))
               (world (WatsonxAI.generate "first" 500 (3 # 10)
                                          (client_of (flaky " late ")) 0)))
     = Returns (strip " late ").
Proof.
  apply (proj2 (proj2 generate_keeps_configuration)
               (client_of (flaky " late ")) (flaky " late ") 0
               "first" "second" 500%Z (3 # 10)%Q (ServiceError "timeout") " late ");
    reflexivity.
Defined.

End Scenarios.

(** ** The other branches of the stub responder *)

Section StubBranches.
Import WatsonxAI Md5.



Lemma innovation_list_parses (n : nat) :
  3 <= n <= 5 ->
  clean (dumps (JList (firstn n five_innovations)))
    = dumps (JList (firstn n five_innovations))
  /\ loads (dumps (JList (firstn n five_innovations)))
     = Some (JList (firstn n five_innovations)).
Proof.
  intros H. assert (n = 3 \/ n = 4 \/ n = 5) as [->|[->| ->]] by lia;
    now vm_compute.
Qed.








End StubBranches.

(** ** More on strings *)

Section MoreStringFacts.

Lemma app_assoc_str (a b c : string) : (a ++ b) ++ c = a ++ b ++ c.
Proof.
  induction a as [|x a IH]; [reflexivity|]. cbn [append]. now rewrite IH.
Qed.

Lemma app_empty_r (a : string) : a ++ EmptyString = a.
Proof.
  induction a as [|x a IH]; [reflexivity|]. cbn [append]. now rewrite IH.
Qed.

Lemma length_app (a b : string) : length (a ++ b) = length a + length b.
Proof.
  induction a as [|x a IH]; [reflexivity|]. cbn [append length]. now rewrite IH.
Qed.


Lemma prefix_false_of_contains (p s : string) :
  contains p s = false -> prefix p s = false.
Proof.
  destruct s as [|c s]; intros H.
  - destruct p; [discriminate | reflexivity].
  - rewrite contains_cons in H. now apply orb_false_iff in H.
Qed.

(** Replacing a text that does not occur changes nothing. *)
Lemma replace_absent (old new s : string) :
  contains old s = false -> replace old new s = s.
Proof.
  intros H. unfold replace. destruct old as [|o old].
  - destruct s; discriminate.
  - cbn [is_empty]. induction s as [|c s IH]; [reflexivity|].
    rewrite replace_from_here, (prefix_false_of_contains _ _ H).
    rewrite contains_cons in H. apply orb_false_iff in H as [_ H].
    now rewrite (IH H).
Qed.

Lemma take_drop (n : nat) (s : string) : s = take n s ++ drop n s.
Proof.
  revert s. induction n as [|n IH]; intros [|c s]; try reflexivity.
  cbn [take drop append]. now rewrite <- IH.
Qed.

Lemma length_take (n : nat) (s : string) : length (take n s) <= n.
Proof.
  revert s. induction n as [|n IH]; intros [|c s]; cbn [take length]; try lia.
  specialize (IH s). lia.
Qed.

Lemma lstrip_suffix (s : string) : exists before, s = before ++ lstrip s.
Proof.
  induction s as [|c s [b IH]]; [now exists EmptyString|].
  cbn [lstrip]. destruct (is_space c).
  - exists (String c b). cbn [append]. now rewrite <- IH.
  - now exists EmptyString.
Qed.

Lemma length_lstrip (s : string) : length (lstrip s) <= length s.
Proof.
  destruct (lstrip_suffix s) as [b E]. rewrite E at 2. rewrite length_app. lia.
Qed.

Lemma length_rstrip (s : string) : length (rstrip s) <= length s.
Proof.
  destruct (rstrip_prefix s) as [t E]. rewrite E at 2. rewrite length_app. lia.
Qed.

Lemma length_strip (s : string) : length (strip s) <= length s.
Proof.
  unfold strip. pose proof (length_rstrip (lstrip s)).
  pose proof (length_lstrip s). lia.
Qed.

Lemma rstrip_cons (c : ascii) (r : string) :
  rstrip (String c r) =
  if is_space c && is_empty (rstrip r) then EmptyString
  else String c (rstrip r).
Proof. reflexivity. Qed.

Lemma rstrip_idempotent (s : string) : rstrip (rstrip s) = rstrip s.
Proof.
  induction s as [|c s IH]; [reflexivity|].
  rewrite rstrip_cons.
  destruct (is_space c && is_empty (rstrip s)) eqn:E; [reflexivity|].
  rewrite rstrip_cons, IH, E. reflexivity.
Qed.

(** Stripping on the right keeps a first character that is not white
    space. *)
Lemma lstrip_rstrip (s : string) :
  lstrip s = s -> lstrip (rstrip s) = rstrip s.
Proof.
  destruct s as [|c s]; [reflexivity|].
  cbn [lstrip]. destruct (is_space c) eqn:E.
  - intros H. pose proof (length_lstrip s) as L. rewrite H in L.
    cbn [length] in L. lia.
  - intros _. rewrite rstrip_cons, E. cbn [andb lstrip]. now rewrite E.
Qed.

Lemma lstrip_idempotent (s : string) : lstrip (lstrip s) = lstrip s.
Proof.
  induction s as [|c s IH]; [reflexivity|].
  cbn [lstrip]. destruct (is_space c) eqn:E; [exact IH|].
  cbn [lstrip]. now rewrite E.
Qed.

Lemma strip_idempotent (s : string) : strip (strip s) = strip s.
Proof.
  unfold strip.
  rewrite (lstrip_rstrip (lstrip s) (lstrip_idempotent s)).
  apply rstrip_idempotent.
Qed.

Lemma strip_verbatim (s : string) : verbatim (strip s) s.
Proof.
  unfold verbatim, strip.
  destruct (lstrip_suffix s) as [b Eb].
  destruct (rstrip_prefix (lstrip s)) as [t Et].
  exists b, t. rewrite <- Et. exact Eb.
Qed.

Lemma slice_verbatim (a b : nat) (s : string) : verbatim (slice a b s) s.
Proof.
  unfold verbatim, slice. exists (take a s), (drop (b - a) (drop a s)).
  rewrite <- (take_drop (b - a)). apply take_drop.
Qed.

Lemma verbatim_trans (a b c : string) :
  verbatim a b -> verbatim b c -> verbatim a c.
Proof.
  intros (p1 & q1 & ->) (p2 & q2 & ->). exists (p2 ++ p1), (q1 ++ q2).
  now rewrite !app_assoc_str.
Qed.

End MoreStringFacts.

(** ** Cleaning and scoring *)

Section CleaningAndScoring.
Import WatsonxAI.

(** X16.  A text without a code fence is only stripped by the cleaning
    step, and cleaning a cleaned text changes nothing. *)
Theorem clean_only_strips :
  (forall s : string, contains "```" s = false -> clean s = strip s) /\
  (forall s : string, clean (clean s) = clean s).
Proof.
  assert (H : forall s, contains "```" s = false -> clean s = strip s).
  { intros s Hs. unfold clean.
    assert (Hj : contains "```json" s = false).
    { destruct (contains "```json" s) eqn:E; [|reflexivity].
      change "```json" with ("```" ++ "json") in E.
      apply contains_shorter in E. congruence. }
    now rewrite (replace_absent _ _ _ Hj), (replace_absent _ _ _ Hs). }
  split; [exact H|].
  intros s. rewrite (H (clean s)) by apply clean_no_fence.
  unfold clean. apply strip_idempotent.
Qed.





End CleaningAndScoring.

(** ** The background section *)

Section BackgroundExtraction.
Import ClaimExtractor.

Lemma is_space_lower (c : ascii) : is_space (lower_char c) = is_space c.
Proof. destruct c as [[] [] [] [] [] [] [] []]; vm_compute; reflexivity. Qed.

Lemma length_lower (s : string) : length (lower s) = length s.
Proof. induction s as [|c s IH]; [reflexivity|]. cbn [lower length]. now rewrite IH. Qed.

Lemma lower_take (n : nat) (s : string) : lower (take n s) = take n (lower s).
Proof.
  revert s. induction n as [|n IH]; intros [|c s]; try reflexivity.
  cbn [take lower]. now rewrite IH.
Qed.

Lemma lower_drop (n : nat) (s : string) : lower (drop n s) = drop n (lower s).
Proof.
  revert s. induction n as [|n IH]; intros [|c s]; try reflexivity.
  cbn [drop lower]. apply IH.
Qed.

Lemma lower_lstrip (s : string) : lower (lstrip s) = lstrip (lower s).
Proof.
  induction s as [|c s IH]; [reflexivity|].
  cbn [lower lstrip]. rewrite is_space_lower.
  destruct (is_space c); [exact IH | reflexivity].
Qed.

Lemma is_empty_lower (s : string) : is_empty (lower s) = is_empty s.
Proof. now destruct s. Qed.

Lemma lower_rstrip (s : string) : lower (rstrip s) = rstrip (lower s).
Proof.
  induction s as [|c s IH]; [reflexivity|].
  cbn [lower]. rewrite !rstrip_cons, is_space_lower, <- IH, is_empty_lower.
  now destruct (is_space c && is_empty (rstrip s)).
Qed.

Lemma lower_strip (s : string) : lower (strip s) = strip (lower s).
Proof. unfold strip. now rewrite lower_rstrip, lower_lstrip. Qed.

Lemma length_slice (a b : nat) (s : string) : length (slice a b s) <= b - a.
Proof. apply length_take. Qed.

Lemma prefix_cons_eq (c d : ascii) (p s : string) :
  prefix (String c p) (String d s) = true <-> c = d /\ prefix p s = true.
Proof.
  simpl. destruct (ascii_dec c d); split; intros H; try tauto; try discriminate.
Qed.

Lemma index_of_prefix (p s : string) (n : nat) :
  index_of p s = Some n -> prefix p (drop n s) = true.
Proof.
  revert n. induction s as [|c s IH]; intros n.
  - cbn [index_of]. destruct (prefix p EmptyString) eqn:E; [|discriminate].
    intros H. inversion H. exact E.
  - change (index_of p (String c s))
      with (if prefix p (String c s) then Some 0
            else option_map S (index_of p s)).
    destruct (prefix p (String c s)) eqn:E.
    + intros H. inversion H. exact E.
    + destruct (index_of p s) as [k|]; [|discriminate].
      intros H. inversion H. cbn [drop]. now apply IH.
Qed.

Lemma prefix_take (p t : string) (k : nat) :
  prefix p t = true -> length p <= k -> prefix p (take k t) = true.
Proof.
  revert t k. induction p as [|c p IH]; intros t k H L.
  - destruct (take k t); reflexivity.
  - destruct t as [|d t]; [discriminate|].
    apply prefix_cons_eq in H as [-> H].
    destruct k as [|k]; [cbn [length] in L; lia|].
    cbn [take]. apply prefix_cons_eq. split; [reflexivity|].
    apply IH; [exact H | cbn [length] in L; lia].
Qed.

(** A prefix that ends in a character that is not white space survives
    stripping on the right. *)
Lemma prefix_rstrip (p t : string) (d : ascii) :
  last_char p = Some d -> is_space d = false ->
  prefix p t = true -> prefix p (rstrip t) = true.
Proof.
  revert t. induction p as [|c p IH]; [discriminate|].
  intros [|x t] Hl Hd H; [discriminate|].
  apply prefix_cons_eq in H as [<- H]. rewrite rstrip_cons.
  destruct p as [|c' p].
  - inversion Hl; subst. rewrite Hd. cbn [andb].
    apply prefix_cons_eq. split; [reflexivity|].
    destruct (rstrip t); reflexivity.
  - assert (Hp : prefix (String c' p) (rstrip t) = true)
      by (apply IH; assumption).
    destruct (rstrip t) as [|y r]; [discriminate|].
    cbn [is_empty]. rewrite andb_false_r.
    apply prefix_cons_eq. now split.
Qed.

Lemma prefix_strip (p t : string) :
  solid p = true -> prefix p t = true -> prefix p (strip t) = true.
Proof.
  unfold solid. destruct p as [|c p]; [discriminate|].
  destruct (last_char (String c p)) as [d|] eqn:Hl; [|discriminate].
  intros Hs H. apply andb_true_iff in Hs as [Hs _].
  apply andb_true_iff in Hs as [Hc Hd].
  apply negb_true_iff in Hc, Hd.
  unfold strip. destruct t as [|x t]; [discriminate|].
  pose proof H as H'. apply prefix_cons_eq in H' as [<- _].
  cbn [lstrip]. rewrite Hc. eapply prefix_rstrip; eassumption.
Qed.

(** The text a marker found at [start] gives. *)
Lemma marker_slice (p text : string) (start : nat) :
  solid p = true -> index_of p (lower text) = Some start ->
  prefix p (lower (strip (slice start (start + 500) text))) = true.
Proof.
  intros Hs Hi. rewrite lower_strip. apply prefix_strip; [exact Hs|].
  unfold slice. rewrite lower_take, lower_drop.
  apply prefix_take; [now apply index_of_prefix|].
  unfold solid in Hs. destruct p as [|c p]; [discriminate|].
  destruct (last_char (String c p)); [|discriminate].
  apply andb_true_iff in Hs as [_ Hs]. apply Nat.leb_le in Hs. lia.
Qed.

Lemma prefix_nonempty (p s : string) :
  prefix p s = true -> p <> EmptyString -> s <> EmptyString.
Proof. destruct p, s; try discriminate; congruence. Qed.

(** What the loop over the markers returns. *)
Lemma scan_patterns_found (text tl : string) (ps : list string) (bg : string) :
  scan_patterns text tl ps = Returns (Some bg) ->
  exists start, bg = strip (slice start (start + 500) text)
                /\ bg <> EmptyString.
Proof.
  induction ps as [|p ps IH]; [discriminate|].
  cbn [scan_patterns].
  destruct (contains p tl); [|exact IH].
  destruct (index_of p tl) as [n|]; [|discriminate].
  destruct (strip (slice n (n + 500) text)) as [|c r] eqn:E; [exact IH|].
  cbn [is_empty negb]. intros H. inversion H. exists n.
  split; [now rewrite E | discriminate].
Qed.

Lemma scan_patterns_first (text : string) (ps : list string) (p : string) :
  Forall (fun q => solid q = true) ps ->
  find (fun q => contains q (lower text)) ps = Some p ->
  exists start,
    index_of p (lower text) = Some start /\
    scan_patterns text (lower text) ps
      = Returns (Some (strip (slice start (start + 500) text))).
Proof.
  induction ps as [|q ps IH]; [discriminate|].
  intros Hall Hf. inversion Hall as [|? ? Hq Hps]; subst.
  cbn [find] in Hf. cbn [scan_patterns].
  destruct (contains q (lower text)) eqn:Hc; [|now apply IH].
  inversion Hf; subst.
  destruct (contains_index_of _ _ Hc) as [n Hn]. rewrite Hn.
  exists n. split; [reflexivity|].
  pose proof (marker_slice _ _ _ Hq Hn) as Hp.
  destruct (strip (slice n (n + 500) text)) as [|c r]; [|reflexivity].
  destruct p; discriminate.
Qed.

Lemma patterns_solid : Forall (fun q => solid q = true) patterns.
Proof. repeat constructor. Qed.

(** X4.  [_extract_background] always returns; the background is never
    empty, never longer than 500 characters, has no white space at
    either end, and is either one of the two fixed placeholders or a
    piece of the disclosure as it stands.  The empty disclosure gives the
    "no text provided" placeholder. *)
Theorem extract_background_contract (text : string) :
  exists bg,
    _extract_background text = Returns bg /\
    bg <> EmptyString /\ length bg <= 500 /\ strip bg = bg /\
    (bg = "No disclosure text provided" \/
     bg = "Technical disclosure provided" \/
     verbatim bg text) /\
    (text = EmptyString -> bg = "No disclosure text provided").
Proof.
  unfold _extract_background. destruct text as [|c text].
  - eexists. split; [reflexivity|]. split; [discriminate|].
    split; [apply Nat.leb_le; now vm_compute|]. split; [now vm_compute|].
    split; [now left | reflexivity].
  - cbn [is_empty].
    destruct (scan_patterns (String c text) (lower (String c text)) patterns)
      as [[bg|]|e] eqn:E.
    + destruct (scan_patterns_found _ _ _ _ E) as (n & Hbg & Hne).
      exists bg. split; [reflexivity|]. split; [exact Hne|].
      rewrite Hbg. split; [|split; [apply strip_idempotent|split]].
      * pose proof (length_strip (slice n (n + 500) (String c text))).
        pose proof (length_slice n (n + 500) (String c text)). lia.
      * right. right.
        eapply verbatim_trans; [apply strip_verbatim | apply slice_verbatim].
      * discriminate.
    + destruct (strip (take 300 (String c text))) as [|x r] eqn:Es.
      * eexists. split; [reflexivity|]. split; [discriminate|].
        split; [apply Nat.leb_le; now vm_compute|]. split; [now vm_compute|].
        split; [right; now left | discriminate].
      * exists (String x r). cbn [is_empty negb].
        split; [reflexivity|]. split; [discriminate|]. rewrite <- Es.
        split; [|split; [apply strip_idempotent|split]].
        -- pose proof (length_strip (take 300 (String c text))).
           pose proof (length_take 300 (String c text)). lia.
        -- right. right. eapply verbatim_trans; [apply strip_verbatim|].
           exists EmptyString, (drop 300 (String c text)).
           apply take_drop.
        -- discriminate.
    + destruct (scan_patterns_returns (String c text)
                  (lower (String c text)) patterns) as [H|(bg & H & _)];
        rewrite H in E; discriminate.
Qed.

(** On a disclosure below U+0100, where lowercasing keeps every
    character in its place: when one of the markers occurs in the
    lowercased disclosure, the background is the stripped 500 characters
    that start where the first marker of the list that occurs, occurs
    first; read in lower case it begins with that marker. *)
Lemma background_at_first_marker (text p : string) :
  find (fun q => contains q (lower text)) patterns = Some p ->
  exists start bg,
    index_of p (lower text) = Some start /\
    _extract_background text = Returns bg /\
    bg = strip (slice start (start + 500) text) /\
    prefix p (lower bg) = true.
Proof.
  intros Hf.
  destruct (scan_patterns_first _ _ _ patterns_solid Hf) as (n & Hn & Hs).
  exists n, (strip (slice n (n + 500) text)).
  split; [exact Hn|]. split; [|split; [reflexivity|]].
  - unfold _extract_background. destruct text as [|c text].
    + apply find_some in Hf as [Hin Hc]. revert Hc. clear -Hin.
      repeat (destruct Hin as [<-|Hin]; [discriminate|]). destruct Hin.
    + cbn [is_empty]. now rewrite Hs.
  - apply marker_slice; [|exact Hn].
    apply find_some in Hf as [Hin _].
    pose proof patterns_solid as Hall. rewrite Forall_forall in Hall.
    now apply Hall.
Qed.

End BackgroundExtraction.

(** ** More on the claim extractor *)

Section ExtractorComposition.
Import ClaimExtractor.

Lemma blank_lower (s : string) : blank (lower s) = blank s.
Proof.
  induction s as [|c s IH]; [reflexivity|].
  cbn [lower blank]. now rewrite is_space_lower, IH.
Qed.

Lemma contains_blank (q t : string) :
  solid q = true -> blank t = true -> contains q t = false.
Proof.
  unfold solid. destruct q as [|x q]; [discriminate|].
  destruct (last_char (String x q)); [|discriminate].
  intros Hs. apply andb_true_iff in Hs as [Hs _].
  apply andb_true_iff in Hs as [Hx _]. apply negb_true_iff in Hx.
  induction t as [|c t IH]; [reflexivity|].
  cbn [blank]. intros H. apply andb_true_iff in H as [Hc Ht].
  rewrite contains_cons, (IH Ht), orb_false_r.
  destruct (prefix (String x q) (String c t)) eqn:P; [|reflexivity].
  apply prefix_cons_eq in P as [-> _]. congruence.
Qed.

Lemma scan_patterns_none (text tl : string) (ps : list string) :
  Forall (fun q => contains q tl = false) ps ->
  scan_patterns text tl ps = Returns None.
Proof.
  induction 1 as [|q ps Hq _ IH]; [reflexivity|].
  cbn [scan_patterns]. now rewrite Hq.
Qed.

Lemma lstrip_blank (s : string) : blank s = true -> lstrip s = EmptyString.
Proof.
  induction s as [|c s IH]; [reflexivity|].
  cbn [blank lstrip]. intros H. apply andb_true_iff in H as [Hc Hs].
  rewrite Hc. now apply IH.
Qed.

Lemma blank_take (n : nat) (s : string) : blank s = true -> blank (take n s) = true.
Proof.
  revert s. induction n as [|n IH]; intros [|c s]; try reflexivity.
  cbn [blank take]. intros H. apply andb_true_iff in H as [Hc Hs].
  now rewrite Hc, IH.
Qed.

(** X6.  A disclosure that is not empty and holds white space only gives
    the "technical disclosure provided" placeholder. *)
Theorem background_of_blank_text (text : string) :
  text <> EmptyString -> blank text = true ->
  _extract_background text = Returns "Technical disclosure provided".
Proof.
  intros Hne Hb. unfold _extract_background.
  destruct text as [|c text]; [contradiction|]. cbn [is_empty].
  rewrite scan_patterns_none.
  - unfold strip. rewrite (lstrip_blank _ (blank_take 300 _ Hb)). reflexivity.
  - eapply Forall_impl; [|exact patterns_solid].
    intros q Hq. apply contains_blank; [exact Hq|]. now rewrite blank_lower.
Qed.

Lemma background_of_blank_text_witness :
  _extract_background (" " ++ nl ++ String "009" EmptyString)
  = Returns "Technical disclosure provided".
Proof.
  apply background_of_blank_text; [discriminate | reflexivity].
Defined.




(** X8.  When the NLU call keeps to its contract, [extract] returns at
    most 20 keywords: the texts of the first 20 keyword items in their
    order, or the two defaults when there is none.  The classification
    codes come from those first 20 texts alone: they are strictly
    increasing and are exactly the codes of the table entries that match
    one of them, or [G06F] alone when none matches.  The extractor itself
    is unchanged. *)
Theorem extract_keywords_and_codes (ce : t) (w : World) (text : string)
        (kws : list string) :
  nlu_keywords (analyze (watsonx_nlu ce) text) = Some kws ->
  exists r,
    result (extract text ce w) = Returns r /\
    final (extract text ce w) = ce /\
    List.length (keywords r) <= 20 /\
    (kws <> [] -> keywords r = map JStr (firstn 20 kws)) /\
    (kws = [] -> keywords r = [JStr "disclosure"; JStr "analysis"]) /\
    StronglySorted str_lt (ipcClassifications r) /\
    (forall c, In c (ipcClassifications r) <->
               hit (firstn 20 kws) c \/
               ((forall c', ~ hit (firstn 20 kws) c') /\ c = "G06F")).
Proof.
  intros Hn.
  destruct (generate_returns (watsonx_ai ce) w (innovations_prompt text)
                             500 (3 # 10)) as (response & w' & Hg).
  destruct (extract_run _ _ _ _ _ _ Hn Hg)
    as (bg & codes & _ & _ & Hc & _ & E).
  destruct (classify_ipc_spec (firstn 20 kws)) as (codes' & Hc' & Hs & Hin).
  assert (codes' = codes) as -> by congruence.
  exists (claims_of bg response kws codes). rewrite E.
  split; [reflexivity|]. split; [reflexivity|].
  unfold claims_of. cbn [keywords ipcClassifications].
  split; [|split; [|split; [|split; assumption]]].
  - destruct (firstn 20 kws) eqn:Ef; [cbn [List.length]; lia|].
    rewrite <- Ef, length_map, length_firstn. lia.
  - intros Hne. destruct kws as [|k kws]; [contradiction|]. reflexivity.
  - intros ->. reflexivity.
Qed.

Lemma extract_keywords_and_codes_witness :
  exists r,
    result (extract "A cell."
              (stub_extractor
                 (nlu_returning
                    (JDict [("keywords",
                             JList [JDict [("text", JStr "Lithium Battery")]])])))
              0) = Returns r /\
    keywords r = [JStr "Lithium Battery"].
Proof.
  destruct (extract_keywords_and_codes
              (stub_extractor
                 (nlu_returning
                    (JDict [("keywords",
                             JList [JDict [("text", JStr "Lithium Battery")]])])))
              0 "A cell." ["Lithium Battery"] eq_refl)
    as (r & Hr & _ & _ & Hk & _).
  exists r. split; [exact Hr|]. apply Hk. discriminate.
Defined.

(** X9.  When the NLU call raises, [extract] raises the same exception:
    no request is made to the hosted model and the extractor is
    unchanged. *)
Theorem extract_nlu_failure (ce : t) (w : World) (text : string) (e : exn) :
  analyze (watsonx_nlu ce) text = Raises e ->
  extract text ce w = (Raises e, ce, w).
Proof.
  intros H. destruct (extract_background_returns text) as (bg & Hbg & _).
  unfold extract.
  rewrite (bind_returns _ _ ce ce w w bg) by (unfold lift; now rewrite Hbg).
  apply bind_raises. unfold nlu_analyze. now rewrite H.
Qed.

Lemma extract_nlu_failure_witness :
  extract "A cell." (stub_extractor nlu_down) 0
  = (Raises (ServiceError "NLU unavailable"), stub_extractor nlu_down, 0).
Proof. apply extract_nlu_failure. reflexivity. Defined.



End ExtractorComposition.

(** ** Construction and requests *)

Section Construction.
Import WatsonxAI.

(** X12.  The constructor copies its settings from the environment; the
    endpoint defaults to the us-south address.  The client it builds is
    either in stub mode without a model, or in real mode with the model
    the connection returned, and real mode needs API key, project id and
    SDK all present: [use_stub] is false exactly when a model is set. *)
Theorem init_modes (env : Environ) (mid : string) :
  model_id (__init__ env mid) = mid /\
  api_key (__init__ env mid) = getenv env "WATSONX_API_KEY" /\
  project_id (__init__ env mid) = getenv env "WATSONX_PROJECT_ID" /\
  watsonx_url (__init__ env mid)
    = match getenv env "WATSONX_URL" with
      | Some u => u
      | None => "https://us-south.ml.cloud.ibm.com"
      end /\
  ((use_stub (__init__ env mid) = true /\ model (__init__ env mid) = None) \/
   (use_stub (__init__ env mid) = false /\
    unset (getenv env "WATSONX_API_KEY") = false /\
    unset (getenv env "WATSONX_PROJECT_ID") = false /\
    WATSONX_AVAILABLE env = true /\
    exists m,
      model (__init__ env mid) = Some m /\
      connect env mid (watsonx_url (__init__ env mid))
              (text_of (getenv env "WATSONX_API_KEY"))
              (text_of (getenv env "WATSONX_PROJECT_ID")) = Returns m)).
Proof.
  unfold __init__. cbv zeta.
  destruct (unset (getenv env "WATSONX_API_KEY"));
    [repeat split; left; now split|].
  destruct (unset (getenv env "WATSONX_PROJECT_ID"));
    [repeat split; left; now split|].
  cbn [orb].
  destruct (WATSONX_AVAILABLE env); cbn [negb];
    [|repeat split; left; now split].
  destruct (connect env mid _ (text_of (getenv env "WATSONX_API_KEY")) _)
    as [m|e] eqn:Hc; [|repeat split; left; now split].
  repeat split. right. repeat split. exists m. split; [reflexivity|].
  cbn [watsonx_url]. exact Hc.
Qed.

(** X13.  A call of [generate] or [generate_json] makes no request to
    the hosted model when [use_stub] is set or no model is present, and
    exactly one otherwise, whether the request succeeds or raises. *)
Theorem generate_request_count (self : t) (w : World) (prompt : string)
        (mt : Z) (temp : Q) :
  world (generate prompt mt temp self w)
    = (if use_stub self || negb (has_model self) then w else S w) /\
  world (generate_json prompt mt self w)
    = (if use_stub self || negb (has_model self) then w else S w).
Proof.
  assert (H : forall t', exists text,
             generate prompt mt t' self w
             = (Returns text, self,
                if use_stub self || negb (has_model self) then w else S w)).
  { intros t'. unfold has_model. destruct (use_stub self) eqn:H1.
    - eexists. apply generate_stub. now left.
    - destruct (model self) as [m|] eqn:H2.
      + destruct (generate_text m w prompt) as [r|e] eqn:H3.
        * eexists. eapply generate_answer; eassumption.
        * eexists. eapply generate_fallback; eassumption.
      + eexists. apply generate_stub. now right. }
  split.
  - destruct (H temp) as [text E]. now rewrite E.
  - destruct (H (1 # 10)%Q) as [text E].
    now rewrite (generate_json_run _ _ _ _ _ _ E).
Qed.

End Construction.

(** ** More on the classification table *)

Section ClassificationSet.
Import ClaimExtractor.

Lemma compare_refl (s : string) : String.compare s s = Eq.
Proof.
  induction s as [|c s IH]; [reflexivity|]. cbn [String.compare].
  replace (Ascii.compare c c) with Eq by (symmetry; apply N.compare_refl).
  exact IH.
Qed.

Lemma str_lt_irrefl (s : string) : ~ str_lt s s.
Proof. unfold str_lt, String.ltb. now rewrite compare_refl. Qed.

(** Two strictly increasing lists with the same members are equal. *)
Lemma sorted_unique (l1 l2 : list string) :
  StronglySorted str_lt l1 -> StronglySorted str_lt l2 ->
  (forall c, In c l1 <-> In c l2) -> l1 = l2.
Proof.
  intros H1. revert l2.
  induction H1 as [|a l1 Hl1 IH Ha]; intros l2 H2 Hin.
  - destruct l2 as [|b l2]; [reflexivity|].
    exfalso. apply (proj2 (Hin b)). now left.
  - destruct H2 as [|b l2 Hl2 Hb].
    + exfalso. apply (proj1 (Hin a)). now left.
    + rewrite Forall_forall in Ha, Hb.
      assert (a = b) as <-.
      { destruct (proj1 (Hin a) (or_introl eq_refl)) as [E|Ia]; [auto|].
        destruct (proj2 (Hin b) (or_introl eq_refl)) as [E|Ib]; [auto|].
        exfalso. apply (str_lt_irrefl a).
        eapply str_lt_trans; [apply Ha, Ib | apply Hb, Ia]. }
      f_equal. apply IH; [exact Hl2|]. intros c. split; intros Hc.
      * destruct (proj1 (Hin c) (or_intror Hc)) as [<-|H]; [|exact H].
        exfalso. apply (str_lt_irrefl a), Ha, Hc.
      * destruct (proj2 (Hin c) (or_intror Hc)) as [<-|H]; [|exact H].
        exfalso. apply (str_lt_irrefl a), Hb, Hc.
Qed.

Lemma hit_lower (kws : list string) (c : string) :
  hit kws c <->
  exists kl term cs,
    In kl (map lower kws) /\ In (term, cs) ipc_mapping /\
    contains term kl = true /\ In c cs.
Proof.
  unfold hit. split.
  - intros (kw & t & cs & Hk & H). exists (lower kw), t, cs.
    split; [now apply in_map | exact H].
  - intros (kl & t & cs & Hk & H). apply in_map_iff in Hk as (kw & <- & Hk).
    now exists kw, t, cs.
Qed.

(** X14.  The codes depend only on which lowercased keywords there are:
    two keyword lists with the same lowercased members, in any order,
    with any repetition and in any letter case, get the same codes. *)
Theorem classify_ipc_by_keyword_set (kws1 kws2 : list string) :
  (forall k, In k (map lower kws1) <-> In k (map lower kws2)) ->
  _classify_ipc (map JStr kws1) = _classify_ipc (map JStr kws2).
Proof.
  intros Hset.
  destruct (classify_ipc_spec kws1) as (c1 & E1 & S1 & I1).
  destruct (classify_ipc_spec kws2) as (c2 & E2 & S2 & I2).
  rewrite E1, E2. f_equal. apply sorted_unique; try assumption.
  assert (Hh : forall c, hit kws1 c <-> hit kws2 c).
  { intros c. rewrite !hit_lower. split;
      intros (kl & t & cs & Hk & H); exists kl, t, cs;
      (split; [now apply Hset | exact H]). }
  intros c. rewrite I1, I2, Hh. split.
  - intros [H|[H ->]]; [now left|]. right. split; [|reflexivity].
    intros c' Hc'. apply (H c'). now apply Hh.
  - intros [H|[H ->]]; [now left|]. right. split; [|reflexivity].
    intros c' Hc'. apply (H c'). now apply Hh.
Qed.

Lemma classify_ipc_by_keyword_set_witness :
  _classify_ipc (map JStr ["Battery"; "SENSOR array"; "battery"])
  = _classify_ipc (map JStr ["sensor array"; "BATTERY"]).
Proof.
  apply classify_ipc_by_keyword_set. intros k. vm_compute. tauto.
Defined.

Lemma scan_keywords_other (k : json) (rest : list json) (codes : list string) :
  (forall s, k <> JStr s) ->
  scan_keywords (k :: rest) codes = Raises AttributeError.
Proof.
  intros H. destruct k; try reflexivity. now elim (H s).
Qed.

Lemma scan_keywords_outcome (kws : list json) (codes : list string) :
  (exists ss out, kws = map JStr ss /\ scan_keywords kws codes = Returns out)
  \/ ((exists k, In k kws /\ forall s, k <> JStr s)
      /\ scan_keywords kws codes = Raises AttributeError).
Proof.
  revert codes. induction kws as [|k kws IH]; intros codes.
  - left. now exists [], codes.
  - assert (Hk : (exists s, k = JStr s) \/ (forall s, k <> JStr s)).
    { destruct k; try (right; discriminate). left. now eexists. }
    destruct Hk as [[s ->]|Hk].
    + rewrite scan_keywords_cons.
      destruct (IH (scan_terms (lower s) codes))
        as [(ss & out & -> & E)|[(k & Hin & Hk) E]].
      * left. now exists (s :: ss), out.
      * right. split; [|exact E]. exists k. split; [now right | exact Hk].
    + right. split; [|now apply scan_keywords_other].
      exists k. split; [now left | exact Hk].
Qed.

(** X15.  [_classify_ipc] raises exactly when some keyword is not a
    string, and then it is an [AttributeError] (from [keyword.lower()]);
    on strings alone it returns. *)
Theorem classify_ipc_raises_iff (kws : list json) :
  (_classify_ipc kws = Raises AttributeError <->
   exists k, In k kws /\ forall s, k <> JStr s) /\
  (forall e, _classify_ipc kws = Raises e -> e = AttributeError) /\
  ((forall k, In k kws -> exists s, k = JStr s) ->
   exists codes, _classify_ipc kws = Returns codes).
Proof.
  unfold _classify_ipc.
  destruct (scan_keywords_outcome kws [])
    as [(ss & out & -> & E)|[(k & Hin & Hk) E]]; rewrite E.
  - split; [split|split].
    + discriminate.
    + intros (k & Hin & Hk). apply in_map_iff in Hin as (s & <- & _).
      now elim (Hk s).
    + discriminate.
    + intros _. now eexists.
  - split; [split|split].
    + intros _. now exists k.
    + reflexivity.
    + intros e H. now inversion H.
    + intros H. destruct (H k Hin) as [s ->]. now elim (Hk s).
Qed.

End ClassificationSet.

(* ================================================================== *)
(** * Properties over every [str] *)
(* ================================================================== *)

(** ** The runtime over every [str] against known values

    The values on the right are what CPython gives for the same calls. *)

Section UnicodeChecks.

Example utf8_three_bytes : Unicode.encode [8364%N] = Returns [226; 130; 172]%N.
Proof. reflexivity. Qed.

Example utf8_four_bytes :
  Unicode.encode [128512%N] = Returns [240; 159; 152; 128]%N.
Proof. reflexivity. Qed.

Example utf8_refuses_surrogate :
  Unicode.encode lone_surrogate_prompt = Raises UnicodeEncodeError.
Proof. reflexivity. Qed.

(** The euro sign, [" patentable "], and U+1F600. *)
Example md5_beyond_latin1 :
  match Unicode.encode
          ((8364%N :: Unicode.widen " patentable ") ++ [128512%N])%list with
  | Returns bs => Md5.md5_int bs
  | Raises _ => 0%N
  end = 337900530301381251539382897989932741980%N.
Proof. now vm_compute. Qed.

Example strip_beyond_latin1 :
  Unicode.strip [12288; 65; 8232]%N = [65%N].
Proof. reflexivity. Qed.

Example repr_with_exponent :
  dumps (JList [JFloat (inject_Z (10 ^ 16)); JFloat (inject_Z (10 ^ 15));
                JFloat (Qmake 15 100000000); JFloat (Qmake 1 10000);
                JFloat (Qmake 12345678 10000); JFloat (inject_Z 75)])
  = "[1e+16, 1000000000000000.0, 1.5e-07, 0.0001, 1234.5678, 75.0]".
Proof. now vm_compute. Qed.

Example loads_overflow : loads "[1e400, -1e400]"
  = Some (JList [JNonFinite PosInf; JNonFinite NegInf]).
Proof. now vm_compute. Qed.

End UnicodeChecks.

(** ** A [string] read as a [str] *)

Section UnicodeStrings.
Import Unicode.

Lemma code_eqb (a b : ascii) : (code a =? code b)%N = Ascii.eqb a b.
Proof.
  destruct (Ascii.eqb_spec a b) as [->|H].
  - apply N.eqb_refl.
  - apply N.eqb_neq. intros E. apply H.
    rewrite <- (ascii_N_embedding a), <- (ascii_N_embedding b).
    unfold code in E. now rewrite E.
Qed.

Lemma widen_app (a b : string) : widen (a ++ b) = (widen a ++ widen b)%list.
Proof. induction a as [|c a IH]; [reflexivity|]. cbn [append widen app]. now rewrite IH. Qed.

Lemma length_widen (s : string) : List.length (widen s) = String.length s.
Proof. induction s as [|c s IH]; [reflexivity|]. cbn [widen List.length String.length]. now rewrite IH. Qed.

Lemma is_empty_widen (s : string) : is_empty (widen s) = PyStr.is_empty s.
Proof. now destruct s. Qed.

Lemma prefix_widen (p s : string) :
  prefix (widen p) (widen s) = String.prefix p s.
Proof.
  revert s; induction p as [|a p IH]; intros s; [now destruct s|].
  destruct s as [|b s]; [reflexivity|].
  cbn [widen prefix String.prefix]. rewrite code_eqb, IH.
  destruct (ascii_dec a b) as [->|H].
  - now rewrite Ascii.eqb_refl.
  - apply Ascii.eqb_neq in H. now rewrite H.
Qed.

Lemma contains_widen (p s : string) :
  contains (widen p) (widen s) = PyStr.contains p s.
Proof.
  induction s as [|c s IH].
  - now destruct p.
  - change (widen (String c s)) with (code c :: widen s).
    cbn [contains PyStr.contains]. rewrite <- IH.
    change (code c :: widen s) with (widen (String c s)).
    now rewrite prefix_widen.
Qed.

Lemma index_of_widen (p s : string) :
  index_of (widen p) (widen s) = PyStr.index_of p s.
Proof.
  induction s as [|c s IH].
  - now destruct p.
  - change (widen (String c s)) with (code c :: widen s).
    cbn [index_of PyStr.index_of]. rewrite <- IH.
    change (code c :: widen s) with (widen (String c s)).
    now rewrite prefix_widen.
Qed.

Lemma count_from_widen (p s : string) (k : nat) :
  count_from (widen p) (widen s) k = PyStr.count_from p s k.
Proof.
  revert k; induction s as [|c s IH]; intros k; [reflexivity|].
  change (widen (String c s)) with (code c :: widen s).
  cbn [count_from PyStr.count_from]. destruct k as [|k]; [|apply IH].
  change (code c :: widen s) with (widen (String c s)).
  rewrite prefix_widen, !IH, length_widen. reflexivity.
Qed.

Lemma count_widen (p s : string) :
  count (widen p) (widen s) = PyStr.count p s.
Proof.
  unfold count, PyStr.count.
  now rewrite is_empty_widen, length_widen, count_from_widen.
Qed.

Lemma is_space_code (c : ascii) : is_space (code c) = PyStr.is_space c.
Proof. destruct c as [[] [] [] [] [] [] [] []]; reflexivity. Qed.

Lemma lstrip_widen (s : string) : lstrip (widen s) = widen (PyStr.lstrip s).
Proof.
  induction s as [|c s IH]; [reflexivity|].
  cbn [widen lstrip PyStr.lstrip]. rewrite is_space_code.
  destruct (PyStr.is_space c); [exact IH|reflexivity].
Qed.

Lemma rstrip_widen (s : string) : rstrip (widen s) = widen (PyStr.rstrip s).
Proof.
  induction s as [|c s IH]; [reflexivity|].
  cbn [widen rstrip PyStr.rstrip]. cbv zeta.
  rewrite is_space_code, IH, is_empty_widen.
  destruct (PyStr.is_space c && PyStr.is_empty (PyStr.rstrip s)); reflexivity.
Qed.

Lemma strip_widen (s : string) : strip (widen s) = widen (PyStr.strip s).
Proof. unfold strip, PyStr.strip. now rewrite lstrip_widen, rstrip_widen. Qed.

Lemma take_widen (n : nat) (s : string) : take n (widen s) = widen (PyStr.take n s).
Proof.
  unfold take. revert s; induction n as [|n IH]; intros [|c s]; try reflexivity.
  cbn [widen firstn PyStr.take]. now rewrite IH.
Qed.

Lemma drop_widen (n : nat) (s : string) : drop n (widen s) = widen (PyStr.drop n s).
Proof.
  unfold drop. revert s; induction n as [|n IH]; intros [|c s]; try reflexivity.
  cbn [widen skipn PyStr.drop]. now rewrite IH.
Qed.

Lemma slice_widen (a b : nat) (s : string) :
  slice a b (widen s) = widen (PyStr.slice a b s).
Proof. unfold slice, PyStr.slice. now rewrite drop_widen, take_widen. Qed.

Lemma encode_code (c : ascii) :
  is_surrogate (code c) = false /\
  utf8 (code c) =
  if (code c <? 128)%N then [code c]
  else [N.lor 192 (N.shiftr (code c) 6); N.lor 128 (N.land (code c) 63)].
Proof. destruct c as [[] [] [] [] [] [] [] []]; split; reflexivity. Qed.

Lemma encode_widen (s : string) : encode (widen s) = Returns (Md5.encode s).
Proof.
  induction s as [|c s IH]; [reflexivity|].
  cbn [widen encode Md5.encode]. cbv zeta.
  destruct (encode_code c) as [-> ->]. rewrite IH.
  destruct (code c <? 128)%N; reflexivity.
Qed.

Lemma encode_raises (s : str) (e : exn) :
  encode s = Raises e -> e = UnicodeEncodeError /\ has_surrogate s = true.
Proof.
  induction s as [|c s IH]; [discriminate|].
  cbn [encode has_surrogate existsb].
  destruct (is_surrogate c); [intros [= <-]; now split|].
  destruct (encode s) as [bs|e'] eqn:E; [discriminate|].
  intros [= <-]. destruct (IH eq_refl) as [-> H]. split; [reflexivity|exact H].
Qed.

Lemma encode_surrogate (s : str) :
  has_surrogate s = true -> encode s = Raises UnicodeEncodeError.
Proof.
  induction s as [|c s IH]; [discriminate|].
  cbn [encode has_surrogate existsb].
  destruct (is_surrogate c); [reflexivity|].
  cbn [orb]. intros H. now rewrite (IH H).
Qed.

Lemma encode_returns (s : str) :
  has_surrogate s = false -> exists bs, encode s = Returns bs.
Proof.
  intros H. destruct (encode s) as [bs|e] eqn:E; [now exists bs|].
  apply encode_raises in E. destruct E as [_ E]. congruence.
Qed.

End UnicodeStrings.

(** ** Removing the code fence from any reply *)

Section UnicodeFence.
Import Unicode.
Local Open Scope list_scope.

Lemma prefix_app_u (p a b : str) :
  prefix p a = true -> prefix p (a ++ b) = true.
Proof.
  revert a; induction p as [|c p IH]; intros a H; [reflexivity|].
  destruct a as [|d a]; [discriminate|].
  cbn [prefix app] in *. apply andb_true_iff in H as [H1 H2].
  now rewrite H1, (IH _ H2).
Qed.

Lemma contains_cons_u (p : str) (c : N) (s : str) :
  contains p (c :: s) = prefix p (c :: s) || contains p s.
Proof. reflexivity. Qed.

Lemma contains_app_u (p a b : str) :
  contains p a = true -> contains p (a ++ b) = true.
Proof.
  induction a as [|c a IH]; intros H.
  - destruct p; [|discriminate]. destruct b; reflexivity.
  - rewrite contains_cons_u in H.
    change ((c :: a) ++ b) with (c :: (a ++ b)). rewrite contains_cons_u.
    apply orb_true_iff in H as [H|H].
    + change (c :: (a ++ b)) with ((c :: a) ++ b).
      now rewrite (prefix_app_u _ _ b H).
    + rewrite (IH H). apply orb_true_r.
Qed.

Lemma contains_lstrip_u (p s : str) :
  contains p (lstrip s) = true -> contains p s = true.
Proof.
  induction s as [|c s IH]; [auto|].
  cbn [lstrip]. destruct (is_space c); [|auto].
  intros H. rewrite contains_cons_u, (IH H). apply orb_true_r.
Qed.

Lemma rstrip_prefix_u (s : str) : exists t, s = rstrip s ++ t.
Proof.
  induction s as [|c s [t IH]]; [now exists []|].
  cbn [rstrip]. destruct (is_space c && is_empty (rstrip s)).
  - now exists (c :: s).
  - exists t. cbn [app]. now rewrite <- IH.
Qed.

Lemma contains_strip_u (p s : str) :
  contains p (strip s) = true -> contains p s = true.
Proof.
  unfold strip. intros H. apply contains_lstrip_u.
  destruct (rstrip_prefix_u (lstrip s)) as [t E]. rewrite E.
  now apply contains_app_u.
Qed.

Lemma prefix_shorter_u (p q s : str) :
  prefix (p ++ q) s = true -> prefix p s = true.
Proof.
  revert s. induction p as [|c p IH]; intros s H; [reflexivity|].
  destruct s as [|d s]; cbn [app prefix] in *; [discriminate|].
  apply andb_true_iff in H as [H1 H2]. now rewrite H1, (IH _ H2).
Qed.

Lemma contains_shorter_u (p q s : str) :
  contains (p ++ q) s = true -> contains p s = true.
Proof.
  induction s as [|c s IH]; intros H.
  - destruct p; [reflexivity|]. discriminate.
  - rewrite contains_cons_u in *. apply orb_true_iff in H as [H|H].
    + now rewrite (prefix_shorter_u _ _ _ H).
    + rewrite (IH H). apply orb_true_r.
Qed.

Lemma prefix_elim_u (p s : str) :
  prefix p s = true -> exists t, s = p ++ t.
Proof.
  revert s. induction p as [|c p IH]; intros s H; [now exists s|].
  destruct s as [|d s]; [discriminate|].
  cbn [prefix] in H. apply andb_true_iff in H as [H1 H2].
  apply N.eqb_eq in H1. subst d.
  destruct (IH s H2) as [t ->]. now exists t.
Qed.

Lemma replace_from_skip_u (old new : str) (c : N) (r : str) (k : nat) :
  replace_from old new (c :: r) (S k) = replace_from old new r k.
Proof. reflexivity. Qed.

Lemma replace_from_here_u (old new : str) (c : N) (r : str) :
  replace_from old new (c :: r) 0 =
  if prefix old (c :: r)
  then new ++ replace_from old new r (List.length old - 1)
  else c :: replace_from old new r 0.
Proof. reflexivity. Qed.

Lemma strip_fences_fence (r : str) :
  strip_fences (code_fence ++ r) = strip_fences r.
Proof.
  unfold strip_fences.
  change (code_fence ++ r) with (96%N :: 96%N :: 96%N :: r).
  rewrite replace_from_here_u.
  change (96%N :: 96%N :: 96%N :: r) with (code_fence ++ r).
  rewrite (prefix_app_u code_fence code_fence r) by reflexivity.
  change (List.length code_fence - 1) with 2.
  now rewrite !replace_from_skip_u.
Qed.

Lemma strip_fences_match (s : str) :
  prefix code_fence s = true ->
  exists r, s = code_fence ++ r /\ List.length r < List.length s /\
            strip_fences s = strip_fences r.
Proof.
  intros H. destruct (prefix_elim_u _ _ H) as [r ->]. exists r.
  split; [reflexivity|]. split; [|apply strip_fences_fence].
  change (code_fence ++ r) with (96%N :: 96%N :: 96%N :: r).
  cbn [List.length]. lia.
Qed.

Lemma strip_fences_step (c : N) (r : str) :
  prefix code_fence (c :: r) = false ->
  strip_fences (c :: r) = c :: strip_fences r.
Proof.
  intros H. unfold strip_fences. rewrite replace_from_here_u. now rewrite H.
Qed.

Lemma strip_fences_head (s t : str) :
  strip_fences s = 96%N :: t -> exists r, s = 96%N :: r.
Proof.
  destruct (prefix code_fence s) eqn:E.
  - destruct (strip_fences_match s E) as (r & -> & _). intros _. now eexists.
  - destruct s as [|c r]; [discriminate|].
    rewrite (strip_fences_step _ _ E). intros H. inversion H. now eexists.
Qed.

Lemma strip_fences_head2 (s t : str) :
  strip_fences s = 96%N :: 96%N :: t ->
  exists r, s = 96%N :: 96%N :: r.
Proof.
  destruct (prefix code_fence s) eqn:E.
  - destruct (strip_fences_match s E) as (r & -> & _). intros _. now eexists.
  - destruct s as [|c r]; [discriminate|].
    rewrite (strip_fences_step _ _ E). intros H. inversion H as [[Hc Hr]].
    destruct (strip_fences_head _ _ Hr) as [r' ->]. now eexists.
Qed.

Lemma strip_fences_no_fence (s : str) :
  contains code_fence (strip_fences s) = false.
Proof.
  remember (List.length s) as n eqn:Hn.
  assert (Hle : List.length s <= n) by lia. clear Hn. revert s Hle.
  induction n as [|n IH]; intros s Hle.
  - destruct s; [reflexivity | cbn [List.length] in Hle; lia].
  - destruct (prefix code_fence s) eqn:E.
    + destruct (strip_fences_match s E) as (r & _ & Hr & ->). apply IH. lia.
    + destruct s as [|c r]; [reflexivity|].
      rewrite (strip_fences_step _ _ E), contains_cons_u.
      rewrite (IH r) by (cbn [List.length] in Hle; lia). rewrite orb_false_r.
      destruct (prefix code_fence (c :: strip_fences r)) eqn:P; [|reflexivity].
      exfalso.
      destruct (prefix_elim_u _ _ P) as [t Ht].
      change (code_fence ++ t) with (96%N :: 96%N :: 96%N :: t) in Ht.
      inversion Ht as [[Hc U]]. subst c.
      destruct (strip_fences_head2 _ _ U) as [r' ->].
      change (96%N :: 96%N :: 96%N :: r') with (code_fence ++ r') in E.
      rewrite (prefix_app_u code_fence code_fence r') in E by reflexivity.
      discriminate.
Qed.

(** No code fence is left in the cleaned text, whatever the reply. *)
Lemma clean_no_fence_u (response : str) :
  contains (widen "```") (WatsonxAI.clean response) = false
  /\ contains (widen "```json") (WatsonxAI.clean response) = false.
Proof.
  assert (H : contains (widen "```") (WatsonxAI.clean response) = false).
  { destruct (contains (widen "```") (WatsonxAI.clean response)) eqn:E;
      [|reflexivity].
    unfold WatsonxAI.clean in E. apply contains_strip_u in E.
    change (replace (widen "```") []
                    (replace (widen "```json") [] response))
      with (strip_fences (replace (widen "```json") [] response)) in E.
    change (widen "```") with code_fence in E.
    now rewrite strip_fences_no_fence in E. }
  split; [exact H|].
  destruct (contains (widen "```json") (WatsonxAI.clean response)) eqn:E;
    [|reflexivity].
  change (widen "```json") with (widen "```" ++ widen "json") in E.
  apply contains_shorter_u in E. congruence.
Qed.

End UnicodeFence.

(** ** The generation client over every [str] *)

Section UnicodeClient.
Import Unicode Unicode.WatsonxAI.

Ltac run_generate_u :=
  cbv beta iota zeta
      delta [generate bind get_self try_except call_model ret raise lift
             has_model].

(** The stub raises exactly what [prompt.encode()] raises. *)
Lemma stub_raises (rt : Runtime) (prompt : str) (e : exn) :
  encode prompt = Raises e -> _stub_generate rt prompt = Raises e.
Proof. intros H. unfold _stub_generate. now rewrite H. Qed.

Lemma stub_returns (rt : Runtime) (prompt : str) (bs : list N) :
  encode prompt = Returns bs ->
  exists text : string, _stub_generate rt prompt = Returns (widen text).
Proof.
  intros H. unfold _stub_generate. rewrite H. cbv zeta.
  eexists. reflexivity.
Qed.

Lemma generate_stub_u (rt : Runtime) (self : t) (w : World) (prompt : str)
      (mt : Z) (temp : Q) :
  use_stub self = true \/ model self = None ->
  generate rt prompt mt temp self w = (_stub_generate rt prompt, self, w).
Proof.
  intros [H|H]; run_generate_u; rewrite H; [reflexivity|].
  rewrite orb_true_r. reflexivity.
Qed.

Lemma generate_answer_u (rt : Runtime) (self : t) (m : ModelInference)
      (w : World) (prompt : str) (mt : Z) (temp : Q) (r : str) :
  use_stub self = false -> model self = Some m ->
  generate_text m w prompt = Returns r ->
  generate rt prompt mt temp self w = (Returns (strip r), self, S w).
Proof.
  intros H1 H2 H3. run_generate_u. rewrite H1, H2.
  cbv beta iota delta [orb negb]. rewrite H2, H3. reflexivity.
Qed.

Lemma generate_fallback_u (rt : Runtime) (self : t) (m : ModelInference)
      (w : World) (prompt : str) (mt : Z) (temp : Q) (e : exn) :
  use_stub self = false -> model self = Some m ->
  generate_text m w prompt = Raises e ->
  generate rt prompt mt temp self w = (_stub_generate rt prompt, self, S w).
Proof.
  intros H1 H2 H3. run_generate_u. rewrite H1, H2.
  cbv beta iota delta [orb negb]. rewrite H2, H3. reflexivity.
Qed.

Lemma generate_via_stub_u (rt : Runtime) (self : t) (w : World) (prompt : str)
      (mt : Z) (temp : Q) :
  reaches_stub self w prompt ->
  exists w', generate rt prompt mt temp self w
             = (_stub_generate rt prompt, self, w').
Proof.
  intros [H|[H|(m & e & Hm & He)]].
  - eexists. apply generate_stub_u. now left.
  - eexists. apply generate_stub_u. now right.
  - destruct (use_stub self) eqn:Hs.
    + eexists. apply generate_stub_u. now left.
    + eexists. eapply generate_fallback_u; eassumption.
Qed.

(** The three ways a call of [generate] can go. *)
Lemma generate_cases (rt : Runtime) (self : t) (w : World) (prompt : str)
      (mt : Z) (temp : Q) :
  (reaches_stub self w prompt /\
   exists w', generate rt prompt mt temp self w
              = (_stub_generate rt prompt, self, w')) \/
  (exists m r, use_stub self = false /\ model self = Some m /\
               generate_text m w prompt = Returns r /\
               generate rt prompt mt temp self w = (Returns (strip r), self, S w)).
Proof.
  destruct (use_stub self) eqn:H1.
  - left. split; [now left|]. eexists. apply generate_stub_u. now left.
  - destruct (model self) as [m|] eqn:H2.
    + destruct (generate_text m w prompt) as [r|e] eqn:H3.
      * right. exists m, r. repeat split; auto.
        eapply generate_answer_u; eassumption.
      * left. split; [right; right; now exists m, e|].
        eexists. eapply generate_fallback_u; eassumption.
    + left. split; [right; now left|]. eexists. apply generate_stub_u. now right.
Qed.

Lemma generate_final (rt : Runtime) (self : t) (w : World) (prompt : str)
      (mt : Z) (temp : Q) :
  final (generate rt prompt mt temp self w) = self.
Proof.
  destruct (generate_cases rt self w prompt mt temp)
    as [[_ [w' E]]|(m & r & _ & _ & _ & E)]; now rewrite E.
Qed.

Lemma generate_settings (rt : Runtime) (prompt : str) (mt mt' : Z) (temp temp' : Q) :
  generate rt prompt mt temp = generate rt prompt mt' temp'.
Proof. reflexivity. Qed.

(** C8.  [generate] does raise.  On the prompt ['\ud800 patentable'] a
    client in stub mode raises [UnicodeEncodeError], and so does a
    connected client whose request to the hosted model times out.
    [generate] calls the stub once outside the [try] and once inside
    its handler; the stub evaluates [prompt.encode()], and a lone
    surrogate has no UTF-8 encoding.  This holds whatever [str.lower]
    and [json.loads] do, and for every [max_tokens] and [temperature]. *)
Theorem generate_raises_on_lone_surrogate (rt : Runtime) (w : World)
    (mt : Z) (temp : Q) :
  result (generate rt lone_surrogate_prompt mt temp stub_client w)
    = Raises UnicodeEncodeError /\
  result (generate rt lone_surrogate_prompt mt temp (real_client timing_out) w)
    = Raises UnicodeEncodeError.
Proof.
  assert (E : _stub_generate rt lone_surrogate_prompt = Raises UnicodeEncodeError)
    by (apply stub_raises; reflexivity).
  split.
  - rewrite generate_stub_u by (now left). now rewrite E.
  - rewrite (generate_fallback_u rt (real_client timing_out) timing_out w
               lone_surrogate_prompt mt temp (ServiceError "timeout"))
      by reflexivity.
    now rewrite E.
Qed.

(** X17.  When [generate] raises, and when it does not, over every
    [str].  With a lone surrogate in the prompt and the stub responder
    reached (stub mode, no model, or a request that raised) it raises
    [UnicodeEncodeError]; it raises nothing else and in no other case;
    a prompt without surrogates always gets a string; an answer of the
    hosted model is returned stripped, whatever the prompt; and the
    client is left as it was in every case. *)
Theorem generate_raises_iff (rt : Runtime) (self : t) (w : World)
    (prompt : str) (mt : Z) (temp : Q) :
  (has_surrogate prompt = true /\ reaches_stub self w prompt ->
   result (generate rt prompt mt temp self w) = Raises UnicodeEncodeError) /\
  (forall e, result (generate rt prompt mt temp self w) = Raises e ->
             e = UnicodeEncodeError /\ has_surrogate prompt = true /\
             reaches_stub self w prompt) /\
  (has_surrogate prompt = false ->
   exists text, result (generate rt prompt mt temp self w) = Returns text) /\
  (forall m r,
     use_stub self = false -> model self = Some m ->
     generate_text m w prompt = Returns r ->
     result (generate rt prompt mt temp self w) = Returns (strip r)) /\
  final (generate rt prompt mt temp self w) = self.
Proof.
  split; [|split; [|split; [|split]]].
  - intros [Hs Hr].
    destruct (generate_via_stub_u rt self w prompt mt temp Hr) as [w' E].
    rewrite E. cbv [result fst].
    apply stub_raises. now apply encode_surrogate.
  - intros e H.
    destruct (generate_cases rt self w prompt mt temp)
      as [[Hr [w' E]]|(m & r & _ & _ & _ & E)]; rewrite E in H;
      cbv [result fst] in H; [|discriminate].
    destruct (encode prompt) as [bs|e'] eqn:He.
    + destruct (stub_returns rt prompt bs He) as [text Ht]. congruence.
    + rewrite (stub_raises rt prompt e' He) in H. injection H as <-.
      destruct (encode_raises _ _ He) as [-> Hs]. repeat split; auto.
  - intros Hs. destruct (encode_returns _ Hs) as [bs He].
    destruct (stub_returns rt prompt bs He) as [text Ht].
    destruct (generate_cases rt self w prompt mt temp)
      as [[Hr [w' E]]|(m & r & _ & _ & _ & E)]; rewrite E; cbv [result fst].
    + exists (widen text). exact Ht.
    + now exists (strip r).
  - intros m r H1 H2 H3. now rewrite (generate_answer_u rt self m w prompt mt temp r).
  - apply generate_final.
Qed.

(** [generate_json] in terms of the outcome of [generate]. *)
Lemma generate_json_run_u (rt : Runtime) (self : t) (w : World) (prompt : str)
      (mt : Z) :
  generate_json rt prompt mt self w =
  match generate rt prompt mt (1 # 10) self w with
  | (Returns response, s', w') => (json_loads rt (clean response), s', w')
  | (Raises e, s', w') => (Raises e, s', w')
  end.
Proof.
  cbv beta iota zeta delta [generate_json bind].
  destruct (generate rt prompt mt (1 # 10) self w) as [[[r|e] s'] w'];
    [|reflexivity].
  cbv beta iota zeta delta [try_except lift raise].
  destruct (json_loads rt (clean r)); reflexivity.
Qed.

End UnicodeClient.

(** ** Parsing the generated text *)

Section UnicodeJson.
Import Unicode Unicode.WatsonxAI.

(** C7.  [generate_json] hands to [json.loads] the text [generate]
    returned, with every [```json] and then every [```] removed and the
    rest stripped, and its outcome is the decoder's outcome on that
    text: the parsed value when there is one, and otherwise the
    exception the decoder raised, which reaches the caller.  What
    [generate] itself raises leaves [generate_json] too.  The text that
    is parsed holds neither marker, whatever the reply.  On the answer
    made of a [```json] line, the text of the object with key [a] and
    value 1, and a closing fence, the text parsed is the text of that
    object, so [generate_json] returns the mapping of [a] to 1 that the
    decoder makes of it; the decoder modelled in [Json] reads that text
    as this mapping. *)
Theorem generate_json_parses_cleaned_text :
  (forall (rt : Runtime) (self : t) (w : World) (prompt : str) (mt : Z),
     match result (generate rt prompt mt (1 # 10) self w) with
     | Returns response =>
         result (generate_json rt prompt mt self w) =
         json_loads rt
           (strip (replace (widen "```") []
                     (replace (widen "```json") [] response)))
     | Raises e => result (generate_json rt prompt mt self w) = Raises e
     end) /\
  (forall response : str,
     contains (widen "```")
       (strip (replace (widen "```") []
                 (replace (widen "```json") [] response))) = false /\
     contains (widen "```json")
       (strip (replace (widen "```") []
                 (replace (widen "```json") [] response))) = false) /\
  (forall (rt : Runtime) (self : t) (m : ModelInference) (w : World)
          (prompt : str) (mt : Z),
     use_stub self = false -> model self = Some m ->
     generate_text m w prompt = Returns (widen fenced_reply) ->
     result (generate_json rt prompt mt self w)
       = json_loads rt (widen ("{" ++ dq ++ "a" ++ dq ++ ":1}"))) /\
  (forall (rt : Runtime) (self : t) (m : ModelInference) (w : World)
          (prompt : str) (mt : Z),
     use_stub self = false -> model self = Some m ->
     generate_text m w prompt = Returns (widen fenced_reply) ->
     json_loads rt (widen ("{" ++ dq ++ "a" ++ dq ++ ":1}"))
       = Returns (VDict [(widen "a", VInt 1)]) ->
     result (generate_json rt prompt mt self w)
       = Returns (VDict [(widen "a", VInt 1)])) /\
  Json.loads ("{" ++ dq ++ "a" ++ dq ++ ":1}") = Some (JDict [("a", JInt 1)]).
Proof.
  assert (F : forall (rt : Runtime) (self : t) (m : ModelInference) (w : World)
                     (prompt : str) (mt : Z),
             use_stub self = false -> model self = Some m ->
             generate_text m w prompt = Returns (widen fenced_reply) ->
             result (generate_json rt prompt mt self w)
             = json_loads rt (widen ("{" ++ dq ++ "a" ++ dq ++ ":1}"))).
  { intros rt self m w prompt mt H1 H2 H3.
    rewrite generate_json_run_u,
      (generate_answer_u rt self m w prompt mt (1 # 10) _ H1 H2 H3).
    cbv beta iota delta [result fst].
    replace (clean (strip (widen fenced_reply)))
      with (widen ("{" ++ dq ++ "a" ++ dq ++ ":1}")) by now vm_compute.
    reflexivity. }
  split; [|split; [exact clean_no_fence_u|split; [exact F|split]]].
  - intros rt self w prompt mt. rewrite generate_json_run_u.
    destruct (generate rt prompt mt (1 # 10) self w) as [[[r|e] s'] w'];
      reflexivity.
  - intros rt self m w prompt mt H1 H2 H3 H4.
    now rewrite (F rt self m w prompt mt H1 H2 H3).
  - now vm_compute.
Qed.

Lemma generate_json_parses_cleaned_text_witness :
  result (generate_json latin1_runtime (widen "Return JSON.") 500
            (real_client (answering (widen fenced_reply))) 0)
  = Returns (VDict [(widen "a", VInt 1)]).
Proof.
  apply (proj1 (proj2 (proj2 (proj2 generate_json_parses_cleaned_text)))
               latin1_runtime
               (real_client (answering (widen fenced_reply)))
               (answering (widen fenced_reply)));
    reflexivity.
Defined.

End UnicodeJson.

(** ** The two patentability methods side by side *)

Section UnicodeExtractor.
Import Unicode Unicode.ClaimExtractor.

Lemma ai_run_u {A} (c : M WatsonxAI.t A) (ce : t) (w w' : World) (o : outcome A) :
  c (watsonx_ai ce) w = (o, watsonx_ai ce, w') -> ai c ce w = (o, ce, w').
Proof.
  intros H. unfold ai, within. rewrite H. now destruct ce.
Qed.

Lemma prompts_agree_u (text : str) :
  patentability_prompt text = WatsonxAI.patentability_prompt text.
Proof.
  unfold patentability_prompt, WatsonxAI.patentability_prompt. exact eq_refl.
Qed.

(** [assess_patentability] in terms of the outcome of [generate]. *)
Lemma assess_patentability_run_u (rt : Runtime) (ce : t) (w w' : World)
      (text : str) (o : outcome str) :
  WatsonxAI.generate rt (patentability_prompt text) 500 (3 # 10) (watsonx_ai ce) w
    = (o, watsonx_ai ce, w') ->
  assess_patentability rt text ce w =
  (Returns
     match o with
     | Raises _ => fallback_assessment
     | Returns response =>
         match json_loads rt (WatsonxAI.clean response) with
         | Returns (VDict d) => fields_of d
         | _ => fallback_assessment
         end
     end, ce, w').
Proof.
  intros H. apply ai_run_u in H.
  unfold assess_patentability, try_except.
  destruct o as [response|e].
  - rewrite (bind_returns _ _ _ _ _ _ _ H).
    destruct (json_loads rt (WatsonxAI.clean response)) as [v|e].
    + rewrite (bind_returns _ _ ce ce w' w' v) by reflexivity.
      destruct v; try reflexivity.
    + rewrite (bind_raises _ _ ce ce w' w' e) by reflexivity.
      reflexivity.
  - rewrite (bind_raises _ _ _ _ _ _ _ H). reflexivity.
Qed.

(** X11.  Started on the same client, the two [assess_patentability]
    methods read the same generated text, over every [str] and whatever
    [json.loads] does.  Where [generate] raises (a lone surrogate met by
    the stub) the client's method raises the same exception and the
    extractor's returns the fixed fallback.  Where the decoder raises on
    the cleaned text, whatever the class of the exception, the client's
    method raises it and the extractor's returns the fallback.  Where
    the decoder returns a value the client's method returns it; the
    extractor's returns the four entries of a parsed object, each with
    its default when missing (true, 50, empty list, empty list), and
    the fallback for a value that is not an object.  The extractor's
    method never raises and leaves the extractor unchanged. *)
Theorem assess_patentability_siblings (rt : Runtime) (ce : t) (w : World)
    (text : str) :
  final (assess_patentability rt text ce w) = ce /\
  match result (WatsonxAI.generate rt (patentability_prompt text) 500 (3 # 10)
                  (watsonx_ai ce) w) with
  | Raises e =>
      result (WatsonxAI.assess_patentability rt text (watsonx_ai ce) w)
        = Raises e /\
      result (assess_patentability rt text ce w) = Returns fallback_assessment
  | Returns response =>
      match json_loads rt (WatsonxAI.clean response) with
      | Raises e =>
          result (WatsonxAI.assess_patentability rt text (watsonx_ai ce) w)
            = Raises e /\
          result (assess_patentability rt text ce w)
            = Returns fallback_assessment
      | Returns (VDict d) =>
          result (WatsonxAI.assess_patentability rt text (watsonx_ai ce) w)
            = Returns (VDict d) /\
          result (assess_patentability rt text ce w) = Returns (fields_of d)
      | Returns v =>
          result (WatsonxAI.assess_patentability rt text (watsonx_ai ce) w)
            = Returns v /\
          result (assess_patentability rt text ce w)
            = Returns fallback_assessment
      end
  end.
Proof.
  pose proof (generate_final rt (watsonx_ai ce) w (patentability_prompt text)
                500%Z (3 # 10)%Q) as Hf.
  destruct (WatsonxAI.generate rt (patentability_prompt text) 500 (3 # 10)
              (watsonx_ai ce) w) as [[o s'] w'] eqn:E.
  cbv [final fst snd] in Hf. subst s'.
  rewrite (assess_patentability_run_u rt ce w w' text o E).
  split; [reflexivity|].
  unfold WatsonxAI.assess_patentability. rewrite generate_json_run_u.
  rewrite <- prompts_agree_u.
  rewrite (generate_settings rt _ 500%Z 500%Z (1 # 10)%Q (3 # 10)%Q), E.
  cbv beta iota delta [result fst].
  destruct o as [response|e]; [|now split].
  destruct (json_loads rt (WatsonxAI.clean response)) as [v|e];
    [|now split].
  destruct v; now split.
Qed.

Lemma assess_patentability_siblings_witness :
  result (WatsonxAI.assess_patentability escape_runtime (widen "A device.")
            (real_client (answering (widen escaped_reply))) 0)
    = Returns escaped_value /\
  result (assess_patentability escape_runtime (widen "A device.")
            (extractor_around (real_client (answering (widen escaped_reply)))) 0)
    = Returns {| isPatentable := VBool true;
                 confidence := VInt 70;
                 missingElements := VList [];
                 recommendations := VList [] |}.
Proof.
  exact (proj2 (assess_patentability_siblings escape_runtime
                  (extractor_around (real_client (answering (widen escaped_reply))))
                  0 (widen "A device."))).
Defined.

End UnicodeExtractor.

(** ** The modules below U+0100 inside the modules over every [str] *)

Section Latin1.

Lemma latin1_lower_widen (s : string) :
  latin1_lower (Unicode.widen s) = Unicode.widen (lower s).
Proof.
  induction s as [|c s IH]; [reflexivity|].
  cbn [Unicode.widen lower latin1_lower map]. fold (latin1_lower (Unicode.widen s)).
  rewrite IH. f_equal.
  destruct c as [[] [] [] [] [] [] [] []]; reflexivity.
Qed.

Lemma latin1_runtime_lowers : lowers_latin1 latin1_runtime.
Proof. intros s. apply latin1_lower_widen. Qed.

(** On a prompt below U+0100 the stub over every [str] is the stub of
    [WatsonxAI]. *)
Lemma stub_generate_latin1 (rt : Unicode.Runtime) (prompt : string) :
  Unicode.str_lower rt (Unicode.widen prompt) = Unicode.widen (lower prompt) ->
  Unicode.WatsonxAI._stub_generate rt (Unicode.widen prompt)
    = Returns (Unicode.widen (WatsonxAI._stub_generate prompt)).
Proof.
  intros Hl. unfold Unicode.WatsonxAI._stub_generate.
  rewrite encode_widen, Hl. cbv zeta.
  rewrite !contains_widen, !count_widen, length_widen.
  reflexivity.
Qed.

Lemma scan_patterns_latin1 (text tl : string) (ps : list string) :
  Unicode.ClaimExtractor.scan_patterns
    (Unicode.widen text) (Unicode.widen tl) (map Unicode.widen ps) =
  match ClaimExtractor.scan_patterns text tl ps with
  | Returns (Some b) => Returns (Some (Unicode.widen b))
  | Returns None => Returns None
  | Raises e => Raises e
  end.
Proof.
  induction ps as [|p ps IH]; [reflexivity|].
  cbn [map Unicode.ClaimExtractor.scan_patterns ClaimExtractor.scan_patterns].
  rewrite contains_widen, index_of_widen.
  destruct (contains p tl); [|exact IH].
  destruct (index_of p tl) as [start|]; [|reflexivity].
  cbv zeta. rewrite slice_widen, strip_widen, is_empty_widen.
  destruct (is_empty (strip (slice start (start + 500) text)));
    [exact IH|reflexivity].
Qed.

(** On a disclosure below U+0100 the background over every [str] is the
    background of [ClaimExtractor]. *)
Lemma extract_background_latin1 (rt : Unicode.Runtime) (text : string) :
  Unicode.str_lower rt (Unicode.widen text) = Unicode.widen (lower text) ->
  Unicode.ClaimExtractor._extract_background rt (Unicode.widen text) =
  match ClaimExtractor._extract_background text with
  | Returns b => Returns (Unicode.widen b)
  | Raises e => Raises e
  end.
Proof.
  intros Hl.
  unfold Unicode.ClaimExtractor._extract_background,
    ClaimExtractor._extract_background.
  rewrite is_empty_widen. destruct (is_empty text); [reflexivity|].
  cbv zeta. rewrite Hl.
  change Unicode.ClaimExtractor.patterns
    with (map Unicode.widen ClaimExtractor.patterns).
  rewrite scan_patterns_latin1.
  destruct (ClaimExtractor.scan_patterns text (lower text)
              ClaimExtractor.patterns) as [[b|]|e]; try reflexivity.
  rewrite take_widen, strip_widen, is_empty_widen.
  destruct (is_empty (strip (take 300 text))); reflexivity.
Qed.

Lemma find_widen (f : Unicode.str -> bool) (ps : list string) (p : Unicode.str) :
  find f (map Unicode.widen ps) = Some p ->
  exists q, p = Unicode.widen q /\ find (fun x => f (Unicode.widen x)) ps = Some q.
Proof.
  induction ps as [|a ps IH]; [discriminate|].
  cbn [map find]. destruct (f (Unicode.widen a)).
  - intros [= <-]. now exists a.
  - exact IH.
Qed.

Lemma find_pointwise {A} (f g : A -> bool) (l : list A) :
  (forall x, f x = g x) -> find f l = find g l.
Proof.
  intros H. induction l as [|a l IH]; [reflexivity|].
  cbn [find]. now rewrite H, IH.
Qed.

(** X18.  The stub responder over every [str].  It raises
    [UnicodeEncodeError] on the prompts that hold a surrogate and
    returns a text on the others; every text it returns lies below
    U+0100; and on a prompt below U+0100, lowercased as the table of
    [PyStr] says, it holds no surrogate and the stub returns the text
    [WatsonxAI._stub_generate] gives for that prompt, so what is stated
    of that text holds of the stub's reply. *)
Theorem stub_generate_over_every_str (rt : Unicode.Runtime) :
  (forall prompt : Unicode.str,
     has_surrogate prompt = true ->
     Unicode.WatsonxAI._stub_generate rt prompt = Raises UnicodeEncodeError) /\
  (forall prompt : Unicode.str,
     has_surrogate prompt = false ->
     exists text : string,
       Unicode.WatsonxAI._stub_generate rt prompt
         = Returns (Unicode.widen text)) /\
  (forall prompt : string,
     Unicode.str_lower rt (Unicode.widen prompt)
       = Unicode.widen (lower prompt) ->
     has_surrogate (Unicode.widen prompt) = false /\
     Unicode.WatsonxAI._stub_generate rt (Unicode.widen prompt)
       = Returns (Unicode.widen (WatsonxAI._stub_generate prompt))).
Proof.
  split; [|split].
  - intros prompt H. apply stub_raises. now apply encode_surrogate.
  - intros prompt H. destruct (encode_returns _ H) as [bs E].
    exact (stub_returns rt prompt bs E).
  - intros prompt Hl. split; [|now apply stub_generate_latin1].
    destruct (has_surrogate (Unicode.widen prompt)) eqn:E; [|reflexivity].
    apply encode_surrogate in E. rewrite encode_widen in E. discriminate.
Qed.

(** X5.  On a disclosure whose characters are below U+0100, lowercased
    as the table of [PyStr] says (lowercasing then keeps every character
    in its place): when one of the markers occurs in the lowercased
    disclosure, the background is the stripped 500 characters that start
    where the first marker of the list that occurs, occurs first; read
    in lower case it begins with that marker. *)
Theorem background_starts_at_first_marker (rt : Unicode.Runtime)
    (text : string) (p : Unicode.str) :
  lowers_latin1 rt ->
  find (fun q => Unicode.contains
                   q (Unicode.str_lower rt (Unicode.widen text)))
       Unicode.ClaimExtractor.patterns = Some p ->
  exists start bg,
    Unicode.index_of p (Unicode.str_lower rt (Unicode.widen text))
      = Some start /\
    Unicode.ClaimExtractor._extract_background rt (Unicode.widen text)
      = Returns bg /\
    bg = Unicode.strip
           (Unicode.slice start (start + 500) (Unicode.widen text)) /\
    Unicode.prefix p (Unicode.str_lower rt bg) = true.
Proof.
  intros Hl Hf. rewrite (Hl text) in *.
  change Unicode.ClaimExtractor.patterns
    with (map Unicode.widen ClaimExtractor.patterns) in Hf.
  apply find_widen in Hf. destruct Hf as (q & -> & Hf).
  assert (Hq : find (fun x => contains x (lower text))
                    ClaimExtractor.patterns = Some q).
  { rewrite <- Hf. apply find_pointwise. intros x. now rewrite contains_widen. }
  destruct (background_at_first_marker text q Hq)
    as (start & bg & H1 & H2 & H3 & H4).
  exists start, (Unicode.widen bg). repeat split.
  - now rewrite index_of_widen.
  - rewrite extract_background_latin1 by apply Hl. now rewrite H2.
  - now rewrite H3, slice_widen, strip_widen.
  - now rewrite (Hl bg), prefix_widen.
Qed.

(** X19.  Lowercasing can shift the marker.  [text_lower.index] counts
    in the lowercased text and the slice is cut from the text itself; on
    three U+0130 followed by [" Background: a widget"] the lowercased
    text is three characters longer before the marker, the index is 7
    where the marker stands at 4, and the background returned is
    ["kground: a widget"]. *)
Theorem background_shifted_by_lowercasing (rt : Unicode.Runtime) :
  Unicode.str_lower rt dotted_text = dotted_text_lower ->
  Unicode.index_of (Unicode.widen "background") (Unicode.str_lower rt dotted_text)
    = Some 7 /\
  Unicode.index_of (Unicode.widen "Background") dotted_text = Some 4 /\
  Unicode.ClaimExtractor._extract_background rt dotted_text
    = Returns (Unicode.widen "kground: a widget").
Proof.
  intros H. unfold Unicode.ClaimExtractor._extract_background.
  rewrite H. split; [|split]; now vm_compute.
Qed.

Lemma background_shifted_by_lowercasing_witness :
  Unicode.ClaimExtractor._extract_background dotted_runtime dotted_text
    = Returns (Unicode.widen "kground: a widget").
Proof.
  apply (background_shifted_by_lowercasing dotted_runtime). reflexivity.
Defined.

Lemma background_starts_at_first_marker_witness :
  exists start bg,
    Unicode.index_of (Unicode.widen "background")
      (Unicode.str_lower latin1_runtime
         (Unicode.widen
            "Intro text... Background: a widget with three screws..."))
      = Some start /\
    Unicode.ClaimExtractor._extract_background latin1_runtime
      (Unicode.widen "Intro text... Background: a widget with three screws...")
      = Returns bg /\
    bg = Unicode.strip
           (Unicode.slice start (start + 500)
              (Unicode.widen
                 "Intro text... Background: a widget with three screws...")) /\
    Unicode.prefix (Unicode.widen "background")
                   (Unicode.str_lower latin1_runtime bg) = true.
Proof.
  apply background_starts_at_first_marker;
    [exact latin1_runtime_lowers | now vm_compute].
Defined.

End Latin1.

(** ** The replies of the stub responder over every [str] *)

Section StubReplies.

(** X20.  The three JSON replies of the stub responder, for every
    prompt that can be encoded.  With [patentability] or [patentable]
    in the lowercased prompt the reply is the patentability object:
    [isPatentable] says whether [device], [method], [system] or
    [process] occurs, and [confidence] is [min(95, 60 + digest mod 35)],
    between 60 and 95.  Without them and with [similarity] or [compare]
    it is the similarity object, whose score is [digest mod 40 + 40]
    plus twice the occurrences of [innovation] and [feature], clamped to
    10..95.  Without either group and with [innovation] or [extract] it
    is the list of the first [min(5, 3 + len(prompt) // 500)]
    innovations, three to five of them.  Each text reads back as the
    value it was printed from.  The digest is that of the UTF-8
    encoding of the prompt. *)
Theorem stub_replies_over_every_str (rt : Unicode.Runtime)
    (prompt : Unicode.str) (encoded : list N) :
  Unicode.encode prompt = Returns encoded ->
  (mentions rt prompt "patentability" || mentions rt prompt "patentable" = true ->
   exists (b : bool) (conf : Z),
     Unicode.WatsonxAI._stub_generate rt prompt
       = Returns (Unicode.widen (dumps (patentability_reply b conf))) /\
     loads (dumps (patentability_reply b conf))
       = Some (patentability_reply b conf) /\
     b = (mentions rt prompt "device" || mentions rt prompt "method"
          || mentions rt prompt "system" || mentions rt prompt "process") /\
     conf = Z.min 95 (60 + Z.of_N (Md5.md5_int encoded) mod 35) /\
     (60 <= conf <= 95)%Z) /\
  (mentions rt prompt "patentability" || mentions rt prompt "patentable" = false ->
   mentions rt prompt "similarity" || mentions rt prompt "compare" = true ->
   exists score : Z,
     Unicode.WatsonxAI._stub_generate rt prompt
       = Returns (Unicode.widen (dumps (similarity_reply score))) /\
     loads (dumps (similarity_reply score)) = Some (similarity_reply score) /\
     score = Z.min 95 (Z.max 10
               (Z.of_N (Md5.md5_int encoded) mod 40 + 40
                + 2 * Z.of_nat (occurrences rt prompt "innovation"
                                + occurrences rt prompt "feature"))) /\
     (10 <= score <= 95)%Z) /\
  (mentions rt prompt "patentability" || mentions rt prompt "patentable" = false ->
   mentions rt prompt "similarity" || mentions rt prompt "compare" = false ->
   mentions rt prompt "innovation" || mentions rt prompt "extract" = true ->
   exists n : nat,
     Unicode.WatsonxAI._stub_generate rt prompt
       = Returns (Unicode.widen (dumps (JList (firstn n five_innovations)))) /\
     loads (dumps (JList (firstn n five_innovations)))
       = Some (JList (firstn n five_innovations)) /\
     n = Nat.min 5 (3 + List.length prompt / 500) /\ 3 <= n <= 5).
Proof.
  intros He. unfold mentions, occurrences.
  pose proof (Z.mod_pos_bound (Z.of_N (Md5.md5_int encoded)) 35 eq_refl) as Hr.
  pose proof (Z.mod_pos_bound (Z.of_N (Md5.md5_int encoded)) 40 eq_refl) as Hr'.
  split; [|split].
  - intros H. eexists _, _.
    split; [|split; [|split; [reflexivity|split; [reflexivity|lia]]]].
    + unfold Unicode.WatsonxAI._stub_generate. rewrite He. cbv zeta.
      rewrite H. reflexivity.
    + apply patentability_reply_parses. lia.
  - intros H1 H2. eexists.
    split; [|split; [|split; [reflexivity|lia]]].
    + unfold Unicode.WatsonxAI._stub_generate. rewrite He. cbv zeta.
      rewrite H1, H2. rewrite (Z.mul_comm _ 2). reflexivity.
    + apply similarity_reply_parses. lia.
  - intros H1 H2 H3. exists (Nat.min 5 (3 + List.length prompt / 500)).
    split; [|split; [|split; [reflexivity|lia]]].
    + unfold Unicode.WatsonxAI._stub_generate. rewrite He. cbv zeta.
      rewrite H1, H2, H3.
      generalize (List.length prompt / 500) as q. intros [|[|q]].
      * now vm_compute.
      * now vm_compute.
      * replace (Nat.min 5 (3 + S (S q))) with 5 by lia. now vm_compute.
    + apply innovation_list_parses. lia.
Qed.

Lemma stub_replies_over_every_str_witness :
  exists conf : Z,
    Unicode.WatsonxAI._stub_generate latin1_runtime euro_prompt
      = Returns (Unicode.widen (dumps (patentability_reply true conf))) /\
    (60 <= conf <= 95)%Z.
Proof.
  destruct (proj1 (stub_replies_over_every_str latin1_runtime euro_prompt
                     [226; 130; 172; 32; 100; 101; 118; 105; 99; 101; 58; 32;
                      105; 115; 32; 105; 116; 32; 112; 97; 116; 101; 110; 116;
                      97; 98; 108; 101; 63]%N eq_refl) eq_refl)
    as (b & conf & H1 & _ & Hb & _ & Hc).
  exists conf. split; [|exact Hc].
  rewrite H1, Hb. reflexivity.
Defined.

End StubReplies.
